(** * A verified model of the folio renamer (script.py)

    The script reads a correction table (CSV), previews a rename plan for
    PDF files below a base directory and, after confirmation, applies it.
    This development embeds the decision logic of the script and proves
    the properties its specification states about it.

    Conventions of the embedding.
    - A Python [str] is a [string] whose characters are read as code points
      below 256; [strip] and [lower] are modelled on that range.
    - Python's unbounded integers used as counters and row numbers are [nat].
    - A Python [dict] is an association list in insertion order.
    - [print] is modelled by a list of events that carry the data the
      message interpolates.
    - The interpreter's libraries ([csv], [pathlib], the operating system)
      are parameters of the development. *)

From Stdlib Require Import String Ascii List Bool Arith Lia Sorted.
From stdpp Require Import base option list strings gmap.

Local Open Scope string_scope.
Local Open Scope list_scope.

(** ** Python strings *)

Module PyStr.

(** [str.isspace] on a single code point below 256. *)
Definition is_space (c : ascii) : bool :=
  let n := nat_of_ascii c in
  (((9 <=? n) && (n <=? 13)) || ((28 <=? n) && (n <=? 32))
   || (n =? 133) || (n =? 160))%nat.

(** [str.lower] on a single code point below 256: the letters A-Z and
    the upper-case letters of the Latin-1 supplement (except the
    multiplication sign) move up by 32. *)
Definition lower_char (c : ascii) : ascii :=
  let n := nat_of_ascii c in
  if (((65 <=? n) && (n <=? 90))
      || ((192 <=? n) && (n <=? 222) && negb (n =? 215)))%nat
  then ascii_of_nat (n + 32) else c.

Fixpoint lower (s : string) : string :=
  match s with
  | EmptyString => EmptyString
  | String c s' => String (lower_char c) (lower s')
  end.

Fixpoint lstrip (s : string) : string :=
  match s with
  | EmptyString => EmptyString
  | String c s' => if is_space c then lstrip s' else s
  end.

Fixpoint rstrip (s : string) : string :=
  match s with
  | EmptyString => EmptyString
  | String c s' =>
      match rstrip s' with
      | EmptyString => if is_space c then EmptyString else String c EmptyString
      | r => String c r
      end
  end.

(** [s.strip()]: leading, then trailing white space is dropped. *)
Definition strip (s : string) : string := rstrip (lstrip s).

(** [s.endswith(suf)] *)
Fixpoint endswith (s suf : string) : bool :=
  if String.eqb s suf then true
  else match s with
       | EmptyString => false
       | String _ s' => endswith s' suf
       end.

(** [s.replace(" ", "")] *)
Fixpoint remove_spaces (s : string) : string :=
  match s with
  | EmptyString => EmptyString
  | String c s' =>
      if Ascii.eqb c " "%char then remove_spaces s'
      else String c (remove_spaces s')
  end.

(** [s.replace("-", "_")] *)
Fixpoint hyphens_to_underscores (s : string) : string :=
  match s with
  | EmptyString => EmptyString
  | String c s' =>
      String (if Ascii.eqb c "-"%char then "_"%char else c)
             (hyphens_to_underscores s')
  end.

(** [sep.join(l)] *)
Fixpoint join (sep : string) (l : list string) : string :=
  match l with
  | [] => EmptyString
  | [x] => x
  | x :: rest => x +:+ sep +:+ join sep rest
  end.

(** [c in s] for a one-character needle. *)
Fixpoint contains_char (c : ascii) (s : string) : bool :=
  match s with
  | EmptyString => false
  | String c' s' => Ascii.eqb c c' || contains_char c s'
  end.

(** [s[:n]] *)
Fixpoint take (n : nat) (s : string) : string :=
  match n, s with
  | S n', String c s' => String c (take n' s')
  | _, _ => EmptyString
  end.

(** Every character of the string is white space. *)
Fixpoint all_space (s : string) : Prop :=
  match s with
  | EmptyString => True
  | String c s' => is_space c = true /\ all_space s'
  end.

(** The string neither starts nor ends with white space. *)
Definition trimmed (s : string) : Prop :=
  (forall c s', s = String c s' -> is_space c = false) /\
  (forall c s', s = s' +:+ String c EmptyString -> is_space c = false).

(** The character occurs in the string. *)
Definition occurs (c : ascii) (s : string) : Prop :=
  exists a b, s = a +:+ String c b.

End PyStr.

(** ** [ensure_pdf] (script.py, lines 24-28) *)

Definition ensure_pdf (name : string) : string :=
  let name := PyStr.strip name in
  if negb (PyStr.endswith (PyStr.lower name) ".pdf")
  then name +:+ ".pdf"
  else name.

(** ** Dictionaries

    A [dict] keeps its keys in insertion order; assigning to a key that is
    present replaces the value in place. *)

Definition dict (V : Type) : Type := list (string * V).

Fixpoint dict_get {V} (d : dict V) (k : string) : option V :=
  match d with
  | [] => None
  | (k', v) :: d' => if String.eqb k' k then Some v else dict_get d' k
  end.

Fixpoint dict_set {V} (d : dict V) (k : string) (v : V) : dict V :=
  match d with
  | [] => [(k, v)]
  | (k', v') :: d' =>
      if String.eqb k' k then (k', v) :: d' else (k', v') :: dict_set d' k v
  end.

(** A dictionary filled by a loop [for x in l: d[kf(x)] = vf(x)]. *)
Definition filled {A V} (kf : A -> string) (vf : A -> V) (l : list A)
    (acc : dict V) : dict V :=
  fold_left (fun d x => dict_set d (kf x) (vf x)) l acc.

(** [k in d] *)
Definition dict_mem {V} (d : dict V) (k : string) : bool :=
  match dict_get d k with Some _ => true | None => false end.

(** ** The exceptions the script handles

    [KeyError] carries the missing key; any other exception is kept with
    its description.  A computation that may raise [E] is a sum. *)

Inductive KeyError : Type := KeyErr (key : string).

Inductive PyException : Type := Raised (description : string).

Definition raising (E A : Type) : Type := E + A.

Definition bind {E A B} (m : raising E A) (k : A -> raising E B) : raising E B :=
  match m with
  | inl e => inl e
  | inr a => k a
  end.

Notation "x <-! m ;; k" := (bind m (fun x => k))
  (at level 100, m at next level, right associativity).

(** [d[k]] *)
Definition getitem {V} (d : dict V) (k : string) : raising KeyError V :=
  match dict_get d k with
  | Some v => inr v
  | None => inl (KeyErr k)
  end.

(** ** What the script prints

    One constructor per message of the script, in the order of the source;
    each carries the values the message interpolates. *)

Definition path : Type := string.

Inductive status_line : Type :=
| SourceFound      (* "OK: origen encontrado" *)
| DestConflict     (* "ATENCION: destino ya existe (conflicto)" *)
| SourceMissing.   (* "FALTA: origen NO existe" *)

Inductive event : Type :=
| EvSchemaError (required found : string)          (* lines 106-108 *)
| EvRowIncomplete (i : nat)                        (* line 119 *)
| EvRowKeyError (i : nat) (e : KeyError)           (* line 128 *)
| EvNoValidRows                                    (* line 145 *)
| EvPreview (rownum : nat) (src dst : path) (status : list status_line)
                                                   (* lines 178-181 *)
| EvSummary (n_exists n_missing n_conflicts : nat) (* lines 183-186 *)
| EvCancelled                                      (* line 190 *)
| EvOmitted (src dst : path)                       (* line 198 *)
| EvAlreadyOk (src : path)                         (* line 205 *)
| EvOmittedDestExists (src dst : path)             (* line 210 *)
| EvRenamed (src dst : path)                       (* line 215 *)
| EvError (src dst : path) (e : PyException)       (* line 218 *)
| EvResult (moved skipped : nat).                  (* lines 221-223 *)

(** ** CSV ingestion (script.py, lines 57-129) *)

Inductive Quoting : Type := QUOTE_MINIMAL | QUOTE_ALL | QUOTE_NONNUMERIC | QUOTE_NONE.

Record Dialect : Type := {
  delimiter : ascii;
  quotechar : option ascii;
  escapechar : option ascii;
  doublequote : bool;
  skipinitialspace : bool;
  lineterminator : string;
  quoting : Quoting
}.

(** One data row as [csv.DictReader] yields it: header name to field; a
    field the row lacks is [None] (the reader's [restval]). *)
Definition raw_row : Type := dict (option string).

(** What the script reads of a [csv.DictReader]: [reader.fieldnames]
    ([None] when the file has no row) and the rows it iterates over. *)
Record DictReader : Type := {
  fieldnames : option (list string);
  data_rows : list raw_row
}.

(** A parsed correction (the dict built at lines 121-126). *)
Record row : Type := {
  rel_path : string;
  folio : string;
  folio_ok : string;
  rownum : nat
}.

(** A function that returns normally or leaves through [sys.exit]. *)
Inductive completion (A : Type) : Type :=
| Return (a : A)
| SysExit (status : nat).
Arguments Return {A} a.
Arguments SysExit {A} status.

Definition tab : ascii := "009"%char.

(** The class [SimpleDialect] of lines 67-74, for a given sample. *)
Definition SimpleDialect (sample : string) : Dialect :=
  {| delimiter :=
       if PyStr.contains_char ","%char sample then ","%char
       else if PyStr.contains_char tab sample then tab
       else ";"%char;
     quotechar := Some "034"%char;
     escapechar := None;
     doublequote := true;
     skipinitialspace := true;
     lineterminator := String "010"%char EmptyString;
     quoting := QUOTE_MINIMAL |}.

Definition required : list string := ["path"; "folio"; "folio_correcto"].

(** The candidates tried for [folio_correcto] (line 99). *)
Definition candidates : list string :=
  ["folio_correcto"; "foliocorrecto"; "folio-correcto"; "folio correcto"].

(** [k.replace(" ", "").replace("-", "_")] (lines 90 and 100). *)
Definition squash (k : string) : string :=
  PyStr.hyphens_to_underscores (PyStr.remove_spaces k).

(** [v or ""] for a value that is a string or [None]. *)
Definition or_empty (v : option string) : string := default "" v.

(** Line 82: lower-cased, stripped header name to header name. *)
Definition build_field_map (names : list string) : dict string :=
  fold_left (fun d f => dict_set d (PyStr.lower (PyStr.strip f)) f) names [].

(** Lines 88-91. *)
Definition build_alt_map (field_map : dict string) : dict string :=
  fold_left (fun a kv => dict_set a (squash kv.1) kv.2) field_map [].

(** Lines 99-103: the first candidate whose squashed form is a key of
    [alt_map] decides; the loop stops there. *)
Fixpoint first_candidate (alt_map : dict string) (cands : list string)
  : option string :=
  match cands with
  | [] => None
  | cand :: rest =>
      match dict_get alt_map (squash cand) with
      | Some orig => Some orig
      | None => first_candidate alt_map rest
      end
  end.

(** Lines 92-103. *)
Definition build_remapped (field_map alt_map : dict string) : dict string :=
  fold_left
    (fun remapped r =>
       match dict_get field_map r with
       | Some orig => dict_set remapped r orig
       | None =>
           if String.eqb r "folio_correcto" then
             match first_candidate alt_map candidates with
             | Some orig => dict_set remapped r orig
             | None => remapped
             end
           else remapped
       end)
    required [].

Definition not_in {V} (d : dict V) (rs : list string) : list string :=
  List.filter (fun r => negb (dict_mem d r)) rs.

(** Lines 82-110: the header is resolved to a map from the three required
    names to header names, or the run ends with status 1. *)
Definition resolve_columns (names : option (list string))
  : list event * completion (dict string) :=
  let found := default [] names in
  let field_map := build_field_map found in
  match not_in field_map required with
  | [] => ([], Return field_map)
  | _ :: _ =>
      let remapped := build_remapped field_map (build_alt_map field_map) in
      match not_in remapped required with
      | [] => ([], Return remapped)
      | _ :: _ =>
          ([EvSchemaError (PyStr.join ", " required) (PyStr.join ", " found)],
           SysExit 1)
      end
  end.

(** Lines 115-117: the body of the [try], up to the test of line 118. *)
Definition extract (field_map : dict string) (raw : raw_row)
  : raising KeyError (string * string * string) :=
  kp <-! getitem field_map "path" ;;
  vp <-! getitem raw kp ;;
  kf <-! getitem field_map "folio" ;;
  vf <-! getitem raw kf ;;
  kc <-! getitem field_map "folio_correcto" ;;
  vc <-! getitem raw kc ;;
  inr (PyStr.strip (or_empty vp), PyStr.strip (or_empty vf),
       PyStr.strip (or_empty vc)).

(** Truth value of a string. *)
Definition truthy (s : string) : bool := negb (String.eqb s "").

(** Lines 112-129: the loop over [enumerate(reader, 2)]. *)
Fixpoint rows_loop (field_map : dict string) (i : nat) (raws : list raw_row)
    (rows : list row) (out : list event) : list row * list event :=
  match raws with
  | [] => (rows, out)
  | raw :: rest =>
      match extract field_map raw with
      | inr (p, f, c) =>
          if negb (truthy p && truthy f && truthy c) then
            rows_loop field_map (S i) rest rows (out ++ [EvRowIncomplete i])
          else
            rows_loop field_map (S i) rest
              (rows ++ [{| rel_path := p; folio := f; folio_ok := c;
                           rownum := i |}])
              out
      | inl e =>
          rows_loop field_map (S i) rest rows (out ++ [EvRowKeyError i e])
      end
  end.

Section Ingestion.

(** [csv.Sniffer().sniff(sample, delimiters)]; [None] when it raises. *)
Variable csv_sniff : string -> list ascii -> option Dialect.

(** [csv.DictReader(fp, dialect=dialect)] on the text of the file. *)
Variable csv_DictReader : string -> Dialect -> DictReader.

(** Lines 57-75; [fp.read(2048)] is the first 2048 characters. *)
Definition sniff_csv_dialect (text : string) : Dialect :=
  let sample := PyStr.take 2048 text in
  match csv_sniff sample [","%char; ";"%char; tab; "|"%char] with
  | Some dialect => dialect
  | None => SimpleDialect sample
  end.

(** Lines 77-129, on the text of the file at [csv_path]. *)
Definition load_rows (text : string) : list event * completion (list row) :=
  let dialect := sniff_csv_dialect text in
  let reader := csv_DictReader text dialect in
  match resolve_columns (fieldnames reader) with
  | (out, SysExit n) => (out, SysExit n)
  | (out, Return field_map) =>
      let '(rows, out') := rows_loop field_map 2 (data_rows reader) [] out in
      (out', Return rows)
  end.

End Ingestion.

(** ** The file system

    [pathlib] and the operating system, as the script uses them.  A path is
    the text of a [Path]; two resolved paths are the same file when they
    are equal ([src.resolve() == dst.resolve()]), so on a platform that
    compares paths without regard to case [fs_resolve] gives the folded
    text.  [exists] and [resolve] are taken to return; [rename] may
    raise. *)

Class FileSystem (FS : Type) : Type := {
  (** [a / b] *)
  path_join : path -> string -> path;
  (** [p.exists()] *)
  fs_exists : FS -> path -> bool;
  (** [p.resolve()] *)
  fs_resolve : FS -> path -> path;
  (** [src.rename(dst)]: the file system after the call, or the exception
      it raises (the file system is then as before). *)
  fs_rename : FS -> path -> path -> raising PyException FS
}.

(** One entry of [plan] (lines 171-176). *)
Record item : Type := {
  item_rownum : nat;
  src : path;
  dst : path;
  can_move : bool
}.

Section Renamer.

Context {FS : Type} `{FileSystem FS}.

(** Lines 164 and 204: equality of the two resolved paths. *)
Definition same_file (fs : FS) (a b : path) : bool :=
  String.eqb (fs_resolve fs a) (fs_resolve fs b).

(** Lines 154-158. *)
Definition paths_of (fs : FS) (base_dir : path) (r : row) : path * path :=
  let folder := fs_resolve fs (path_join base_dir (rel_path r)) in
  let src_name := ensure_pdf (folio r) in
  let dst_name := ensure_pdf (folio_ok r) in
  (path_join folder src_name, path_join folder dst_name).

(** The accumulators of the preview loop (lines 150-151) and its output. *)
Record plan_state : Type := {
  plan : list item;
  n_exists : nat;
  n_missing : nat;
  n_conflicts : nat;
  preview : list event
}.

Definition plan_init : plan_state :=
  {| plan := []; n_exists := 0; n_missing := 0; n_conflicts := 0;
     preview := [] |}.

(** Lines 160-169: the status lines of one row. *)
Definition status_of (fs : FS) (s d : path) : list status_line :=
  if fs_exists fs s then
    SourceFound ::
      (if fs_exists fs d && negb (same_file fs s d) then [DestConflict] else [])
  else [SourceMissing].

(** Line 175. *)
Definition can_move_of (fs : FS) (s d : path) : bool :=
  fs_exists fs s && (negb (fs_exists fs d) || same_file fs s d).

(** Lines 153-181: one iteration of the preview loop. *)
Definition plan_step (fs : FS) (base_dir : path) (st : plan_state) (r : row)
  : plan_state :=
  let '(s, d) := paths_of fs base_dir r in
  let found := fs_exists fs s in
  let conflict := found && fs_exists fs d && negb (same_file fs s d) in
  {| plan := plan st ++ [{| item_rownum := rownum r; src := s; dst := d;
                            can_move := can_move_of fs s d |}];
     n_exists := if found then S (n_exists st) else n_exists st;
     n_missing := if found then n_missing st else S (n_missing st);
     n_conflicts := if conflict then S (n_conflicts st) else n_conflicts st;
     preview := preview st ++ [EvPreview (rownum r) s d (status_of fs s d)] |}.

Definition make_plan (fs : FS) (base_dir : path) (rows : list row) : plan_state :=
  fold_left (plan_step fs base_dir) rows plan_init.

(** The state of the loop that applies the plan (lines 194-219). *)
Record exec_state : Type := {
  fs_now : FS;
  moved : nat;
  skipped : nat;
  log : list event
}.

Definition exec_init (fs : FS) : exec_state :=
  {| fs_now := fs; moved := 0; skipped := 0; log := [] |}.

(** Lines 196-219: one iteration. *)
Definition exec_step (st : exec_state) (it : item) : exec_state :=
  let fs := fs_now st in
  if negb (can_move it) then
    {| fs_now := fs; moved := moved st; skipped := S (skipped st);
       log := log st ++ [EvOmitted (src it) (dst it)] |}
  else if same_file fs (src it) (dst it) then
    {| fs_now := fs; moved := moved st; skipped := skipped st;
       log := log st ++ [EvAlreadyOk (src it)] |}
  else if fs_exists fs (dst it) then
    {| fs_now := fs; moved := moved st; skipped := S (skipped st);
       log := log st ++ [EvOmittedDestExists (src it) (dst it)] |}
  else
    match fs_rename fs (src it) (dst it) with
    | inr fs' =>
        {| fs_now := fs'; moved := S (moved st); skipped := skipped st;
           log := log st ++ [EvRenamed (src it) (dst it)] |}
    | inl e =>
        {| fs_now := fs; moved := moved st; skipped := S (skipped st);
           log := log st ++ [EvError (src it) (dst it) e] |}
    end.

Definition execute_from (st : exec_state) (p : list item) : exec_state :=
  fold_left exec_step p st.

Definition execute (fs : FS) (p : list item) : exec_state :=
  execute_from (exec_init fs) p.

(** The preview followed by the application of the plan, for rows
    already loaded and the answer "1" to the confirmation. *)
Definition cycle (fs : FS) (base_dir : path) (rows : list row) : exec_state :=
  execute fs (plan (make_plan fs base_dir rows)).

(** What a run of the script leaves behind. *)
Record run : Type := {
  exit_status : nat;
  fs_after : FS;
  output : list event
}.

Variable csv_sniff : string -> list ascii -> option Dialect.
Variable csv_DictReader : string -> Dialect -> DictReader.

(** [main] from line 143 on: [base_dir] is the directory entered, [text]
    the content of the CSV chosen and [go] the answer to the
    confirmation.  The prompts before line 143 are not modelled. *)
Definition main (fs : FS) (base_dir : path) (text : string) (go : string) : run :=
  match load_rows csv_sniff csv_DictReader text with
  | (out, SysExit n) => {| exit_status := n; fs_after := fs; output := out |}
  | (out, Return []) =>
      {| exit_status := 0; fs_after := fs; output := out ++ [EvNoValidRows] |}
  | (out, Return rows) =>
      let p := make_plan fs base_dir rows in
      let out := out ++ preview p
                   ++ [EvSummary (n_exists p) (n_missing p) (n_conflicts p)] in
      if negb (String.eqb (PyStr.strip go) "1") then
        {| exit_status := 0; fs_after := fs; output := out ++ [EvCancelled] |}
      else
        let st := execute fs (plan p) in
        {| exit_status := 0; fs_after := fs_now st;
           output := out ++ log st ++ [EvResult (moved st) (skipped st)] |}
  end.

End Renamer.

(** ** A concrete file system

    A flat, case-insensitive volume without links: a file is known by the
    lower-cased text of its path, and the map gives its content.  Renaming
    fails when the source is missing or the destination is taken by another
    file. *)

Module FlatFS.

Definition canon (p : path) : path := PyStr.lower p.

Definition join (a : path) (b : string) : path := a +:+ "/" +:+ b.

Definition present (fs : gmap string string) (p : path) : bool :=
  bool_decide (is_Some (fs !! canon p)).

Definition rename (fs : gmap string string) (s d : path)
  : raising PyException (gmap string string) :=
  match fs !! canon s with
  | None => inl (Raised "FileNotFoundError")
  | Some content =>
      if String.eqb (canon s) (canon d) then inr fs
      else match fs !! canon d with
           | Some _ => inl (Raised "FileExistsError")
           | None => inr (<[canon d := content]> (delete (canon s) fs))
           end
  end.

#[global] Instance flat_fs : FileSystem (gmap string string) :=
  {| path_join := join;
     fs_exists := present;
     fs_resolve := fun _ p => canon p;
     fs_rename := rename |}.

(** No automatic dialect detection, and a reader that ignores the text
    and yields a fixed table. *)
Definition no_sniff (sample : string) (delims : list ascii) : option Dialect := None.

Definition fixed_reader (r : DictReader) (text : string) (d : Dialect) : DictReader := r.

End FlatFS.

(** ** Vocabulary of the statements *)

(** The key under which line 82 files a header name. *)
Definition header_key (h : string) : string := PyStr.lower (PyStr.strip h).

(** A required name is found directly: some header has it as its key. *)
Definition direct (names : list string) (r : string) : Prop :=
  exists h, In h names /\ header_key h = r.

(** Some header's key, with spaces removed and hyphens turned into
    underscores, is one of the two squashed candidates. *)
Definition fuzzy (names : list string) : Prop :=
  exists h, In h names /\
    (squash (header_key h) = "folio_correcto" \/
     squash (header_key h) = "foliocorrecto").

(** What lines 84-104 accept for a required name. *)
Definition resolvable (names : list string) (r : string) : Prop :=
  direct names r \/ (r = "folio_correcto" /\ fuzzy names).

(** [enumerate(rows, i)] *)
Fixpoint enumerate_from {A} (i : nat) (l : list A) : list (nat * A) :=
  match l with
  | [] => []
  | x :: l' => (i, x) :: enumerate_from (S i) l'
  end.

(** The record a numbered row contributes, if any. *)
Definition kept (field_map : dict string) (ir : nat * raw_row) : option row :=
  match extract field_map ir.2 with
  | inr (p, f, c) =>
      if truthy p && truthy f && truthy c
      then Some {| rel_path := p; folio := f; folio_ok := c; rownum := ir.1 |}
      else None
  | inl _ => None
  end.

(** The message a numbered row causes, if any. *)
Definition reported (field_map : dict string) (ir : nat * raw_row) : option event :=
  match extract field_map ir.2 with
  | inr (p, f, c) =>
      if truthy p && truthy f && truthy c then None
      else Some (EvRowIncomplete ir.1)
  | inl e => Some (EvRowKeyError ir.1 e)
  end.

(** The value of a column in a row: the header the map gives for the
    column, then the field the row has under that header. *)
Definition cell (field_map : dict string) (raw : raw_row) (col : string)
  : raising KeyError (option string) :=
  h <-! getitem field_map col ;; getitem raw h.

(** How a header name answers for a required name: directly, or, for
    [folio_correcto] when no header has that key, as one of the squashed
    candidates. *)
Definition answers (found : list string) (r h : string) : Prop :=
  In h found /\
  (header_key h = r \/
   (r = "folio_correcto" /\ ~ direct found r /\
    (squash (header_key h) = "folio_correcto" \/
     squash (header_key h) = "foliocorrecto"))).

(** *** The resolution as the specification words it

    Spaces and hyphens are stripped from the header keys, from the
    required name and from its synonyms; a required name is resolved when
    the stripped key of some header is among the stripped names. *)

Fixpoint strip_spaces_hyphens (s : string) : string :=
  match s with
  | EmptyString => EmptyString
  | String c s' =>
      if Ascii.eqb c " "%char || Ascii.eqb c "-"%char
      then strip_spaces_hyphens s'
      else String c (strip_spaces_hyphens s')
  end.

Definition synonyms (r : string) : list string :=
  if String.eqb r "folio_correcto"
  then ["folio correcto"; "folio-correcto"; "foliocorrecto"]
  else [].

Definition worded_resolvable (names : list string) (r : string) : bool :=
  existsb
    (fun h =>
       existsb (String.eqb (strip_spaces_hyphens (header_key h)))
         (map strip_spaces_hyphens (r :: synonyms r)))
    names.

(** *** The planner and the loop that applies the plan *)

Section RenamerVocabulary.

Context {FS : Type} `{FileSystem FS}.

(** The plan entry of a row. *)
Definition entry_of (fs : FS) (base_dir : path) (r : row) : item :=
  {| item_rownum := rownum r;
     src := (paths_of fs base_dir r).1;
     dst := (paths_of fs base_dir r).2;
     can_move := can_move_of fs (paths_of fs base_dir r).1 (paths_of fs base_dir r).2 |}.

(** The preview of a row. *)
Definition preview_of (fs : FS) (base_dir : path) (r : row) : event :=
  EvPreview (rownum r) (paths_of fs base_dir r).1 (paths_of fs base_dir r).2
    (status_of fs (paths_of fs base_dir r).1 (paths_of fs base_dir r).2).

(** The source of the entry exists. *)
Definition source_found (fs : FS) (it : item) : bool := fs_exists fs (src it).

(** The destination of the entry is taken by another file than the source,
    which exists. *)
Definition in_conflict (fs : FS) (it : item) : bool :=
  fs_exists fs (src it) && fs_exists fs (dst it)
  && negb (same_file fs (src it) (dst it)).

(** The state in which the loop reaches entry [k] of the plan [p]. *)
Definition reached (fs : FS) (p : list item) (k : nat) : exec_state :=
  execute fs (take k p).

(** A volume without links: whether a path exists depends only on what it
    resolves to; a rename that succeeds leaves resolution as it was, and
    afterwards the source is gone, the destination exists and every other
    path is as before. *)
Class FileSystemLaws : Prop := {
  exists_resolve : forall (fs : FS) (p q : path),
    fs_resolve fs p = fs_resolve fs q -> fs_exists fs p = fs_exists fs q;
  rename_resolve : forall (fs fs' : FS) (s d p : path),
    fs_rename fs s d = inr fs' -> fs_resolve fs' p = fs_resolve fs p;
  rename_exists : forall (fs fs' : FS) (s d p : path),
    fs_rename fs s d = inr fs' -> same_file fs s d = false ->
    fs_exists fs' p =
      if same_file fs p s then false
      else if same_file fs p d then true
      else fs_exists fs p
}.

(** The message one iteration of the loop prints, on the file system it
    finds. *)
Definition step_event (fs : FS) (it : item) : event :=
  if negb (can_move it) then EvOmitted (src it) (dst it)
  else if same_file fs (src it) (dst it) then EvAlreadyOk (src it)
  else if fs_exists fs (dst it) then EvOmittedDestExists (src it) (dst it)
  else match fs_rename fs (src it) (dst it) with
       | inr _ => EvRenamed (src it) (dst it)
       | inl e => EvError (src it) (dst it) e
       end.

(** The messages of the loop over a plan, from a given state. *)
Fixpoint trace (st : exec_state) (p : list item) : list event :=
  match p with
  | [] => []
  | it :: p' => step_event (fs_now st) it :: trace (exec_step st it) p'
  end.

(** Relative to the file system [fs0] on which a plan was made: paths
    resolve on [fs] as they did, a path that existed is gone on [fs], and
    an entry carries the flag computed on [fs0]. *)
Definition stable (fs0 fs : FS) : Prop :=
  forall p, fs_resolve fs p = fs_resolve fs0 p.

Definition gone (fs0 fs : FS) (q : path) : Prop :=
  fs_exists fs0 q = true /\ fs_exists fs q = false.

Definition planned (fs0 : FS) (it : item) : Prop :=
  can_move it = can_move_of fs0 (src it) (dst it).

(** Two runs in a row on the same rows, each confirmed. *)
Definition second_plan (fs : FS) (base_dir : path) (rows : list row) : plan_state :=
  make_plan (fs_now (cycle fs base_dir rows)) base_dir rows.

Definition second_cycle (fs : FS) (base_dir : path) (rows : list row) : exec_state :=
  cycle (fs_now (cycle fs base_dir rows)) base_dir rows.

End RenamerVocabulary.

Arguments FileSystemLaws FS {_}.

(** ** Concrete tables and volumes *)

Module Scenario.

(** The dictionary [csv.DictReader] builds for a row: the header names are
    paired with the fields in order, and a name the row has no field for
    gets [None]. *)
Fixpoint zip_row (names fields : list string) (d : raw_row) : raw_row :=
  match names, fields with
  | n :: ns, f :: fs => zip_row ns fs (dict_set d n (Some f))
  | n :: ns, [] => zip_row ns [] (dict_set d n None)
  | [], _ => d
  end.

Definition table (names : list string) (rows : list (list string)) : DictReader :=
  {| fieldnames := Some names;
     data_rows := map (fun fields => zip_row names fields []) rows |}.

(** A table with a spaced header for the third column, one good row, one
    row with an empty folio and one short row. *)
Definition corrections : DictReader :=
  table ["Path"; "Folio"; "Folio Correcto"]
    [ ["2017/04/egreso"; " 20170413 "; "17040075"];
      ["2017/04/egreso"; "  "; "17040074"];
      ["2017/01/traspaso"; "17020026"] ].

(** A table whose header lacks the required names. *)
Definition wrong_header : DictReader :=
  table ["carpeta"; "folio"] [ ["2017/04/egreso"; "20170413"] ].

(** A row that lacks the column the map sends [folio] to. *)
Definition ragged : list raw_row := [ [("path", Some "a"); ("folio_correcto", Some "c")] ].

Definition vol (files : list (string * string)) : gmap string string :=
  list_to_map files.

Definition mkrow (p f c : string) (i : nat) : row :=
  {| rel_path := p; folio := f; folio_ok := c; rownum := i |}.

(** Both the wrongly and the rightly named file are present. *)
Definition conflict_vol : gmap string string :=
  vol [("/data/2017/04/egreso/20170421.pdf", "one");
       ("/data/2017/04/egreso/17040074.pdf", "other")].

Definition conflict_rows : list row :=
  [mkrow "2017/04/egreso" "20170421" "17040074" 2].

(** A single file and a record that only changes the case of its name. *)
Definition case_vol : gmap string string := vol [("/data/f/a.pdf", "x")].

Definition case_rows : list row := [mkrow "f" "a" "A" 2].

(** A single file and two records that form a chain: the destination of
    the first is the source of the second. *)
Definition chain_vol : gmap string string := vol [("/data/f/a.pdf", "x")].

Definition chain_rows : list row := [mkrow "f" "a" "b" 2; mkrow "f" "b" "c" 3].

End Scenario.

(** ** The console (script.py, lines 30-55 and 131-146)

    [input] meets a typed line, an interruption of the operator, or the
    end of the input.  The text of the prompts is not kept. *)

Inductive keyboard : Type :=
| Typed (line : string)
| CtrlC.

Definition stdin : Type := list keyboard.

Inductive prompt_event : Type :=
| EvBanner                         (* line 132 *)
| EvInterrupted                    (* line 34 *)
| EvBadBase (base_dir : path)      (* line 137 *)
| EvNoCsv (base_dir : path)        (* line 40 *)
| EvMenu (names : list string)     (* lines 43-45 *)
| EvInvalidNumber                  (* line 50 *)
| EvOutOfRange                     (* line 55 *)
| EvUsing (name : string).         (* line 141 *)

(** How the process ends: through [sys.exit] (or by reaching the end of
    [main], status 0), or with an exception nobody handles. *)
Inductive ending : Type :=
| Exit (status : nat)
| Traceback (e : PyException).

(** A step of the dialogue: it ends the process, or gives a value and the
    input that is left; either way with what it printed. *)
Definition dialogue (A : Type) : Type :=
  list prompt_event * raising ending (A * stdin).

Definition DEFAULT_BASE : path :=
  "C:\Users\Estacion 1\OneDrive\Documentos\indexanter\ENTREGABLES".

(** Lines 30-35. *)
Definition ask (inp : stdin) : dialogue string :=
  match inp with
  | Typed line :: rest => ([], inr (line, rest))
  | CtrlC :: _ => ([EvInterrupted], inl (Exit 1))
  | [] => ([], inl (Traceback (Raised "EOFError")))
  end.

(** [c.isdecimal()] and [c.isdigit()] on a code point below 256: the
    superscripts one, two and three are digits that are not decimal. *)
Definition is_decimal (c : ascii) : bool :=
  let n := nat_of_ascii c in ((48 <=? n) && (n <=? 57))%nat.

Definition is_digit (c : ascii) : bool :=
  let n := nat_of_ascii c in
  (is_decimal c || (n =? 178) || (n =? 179) || (n =? 185))%nat.

Fixpoint all_chars (f : ascii -> bool) (s : string) : bool :=
  match s with
  | EmptyString => true
  | String c s' => f c && all_chars f s'
  end.

(** [s.isdigit()] *)
Definition isdigit (s : string) : bool :=
  truthy s && all_chars is_digit s.

Fixpoint decimal_value (acc : nat) (s : string) : nat :=
  match s with
  | EmptyString => acc
  | String c s' => decimal_value (10 * acc + (nat_of_ascii c - 48)) s'
  end.

Section Picker.

(** [sys.get_int_max_str_digits()]: 0 when the interpreter has no limit,
    else at least 640 (4300 unless it was changed). *)
Variable int_max_str_digits : nat.

(** [int(s)] for a string of digits ([s.isdigit()] holds): the value of a
    decimal string within the limit, [ValueError] otherwise. *)
Definition int_of_digits (s : string) : raising PyException nat :=
  if negb (all_chars is_decimal s) then inl (Raised "ValueError")
  else if ((0 <? int_max_str_digits)
           && (int_max_str_digits <? String.length s))%nat
  then inl (Raised "ValueError")
  else inr (decimal_value 0 s).

(** Lines 47-55: the loop, one answer per iteration. *)
Fixpoint pick_loop (csvs : list path) (inp : stdin) (out : list prompt_event)
  : dialogue path :=
  match inp with
  | [] => (out, inl (Traceback (Raised "EOFError")))
  | CtrlC :: _ => (out ++ [EvInterrupted], inl (Exit 1))
  | Typed line :: rest =>
      let choice := PyStr.strip line in
      if negb (isdigit choice) then pick_loop csvs rest (out ++ [EvInvalidNumber])
      else
        match int_of_digits choice with
        | inl e => (out, inl (Traceback e))
        | inr idx =>
            if ((1 <=? idx) && (idx <=? length csvs))%nat then
              match csvs !! (idx - 1) with
              | Some csv => (out, inr (csv, rest))
              | None => (out, inl (Traceback (Raised "IndexError")))
              end
            else pick_loop csvs rest (out ++ [EvOutOfRange])
        end
  end.

(** Lines 37-55, on the sorted list of the CSV files of [base_dir] and the
    names to show for them. *)
Definition pick_csv (base_dir : path) (csvs : list path) (name : path -> string)
    (inp : stdin) : dialogue path :=
  match csvs with
  | [] => ([EvNoCsv base_dir], inl (Exit 1))
  | _ :: _ => pick_loop csvs inp [EvMenu (map name csvs)]
  end.

(** The message for an answer that is asked again. *)
Definition rejection (line : string) : prompt_event :=
  if isdigit (PyStr.strip line) then EvOutOfRange else EvInvalidNumber.

(** An answer that is asked again: not made of digits, or a decimal
    number that is not the number of a file listed. *)
Definition rejected (csvs : list path) (line : string) : Prop :=
  isdigit (PyStr.strip line) = false \/
  (int_of_digits (PyStr.strip line)
     = inr (decimal_value 0 (PyStr.strip line)) /\
   (decimal_value 0 (PyStr.strip line) = 0 \/
    length csvs < decimal_value 0 (PyStr.strip line))).

End Picker.

(** What the start of [main] asks of [pathlib] beyond [FileSystem]. *)
Class Shell (FS : Type) : Type := {
  (** [p.is_dir()] *)
  fs_is_dir : FS -> path -> bool;
  (** [sorted(base_dir.glob("*.csv"))] *)
  sorted_csvs : FS -> path -> list path;
  (** [p.name] *)
  path_name : path -> string;
  (** the text read from [p] opened with encoding utf-8-sig *)
  read_text : FS -> path -> string
}.

(** A whole run of the script. *)
Record session (FS : Type) : Type := {
  ended : ending;
  fs_end : FS;
  printed : list (prompt_event + event)
}.
Arguments ended {FS} _.
Arguments fs_end {FS} _.
Arguments printed {FS} _.

Section Script.

Context {FS : Type} `{FileSystem FS} `{Shell FS}.

Variable int_max_str_digits : nat.
Variable csv_sniff : string -> list ascii -> option Dialect.
Variable csv_DictReader : string -> Dialect -> DictReader.

Definition stop (fs : FS) (e : ending) (out : list (prompt_event + event))
  : session FS :=
  {| ended := e; fs_end := fs; printed := out |}.

(** Lines 148-224: the preview, the confirmation and the loop, for rows
    loaded; [out] is what was printed so far. *)
Definition confirm_and_apply (fs : FS) (base_dir : path) (rows : list row)
    (inp : stdin) (out : list (prompt_event + event)) : session FS :=
  let p := make_plan fs base_dir rows in
  let out := out ++ map inr (preview p)
               ++ [inr (EvSummary (n_exists p) (n_missing p) (n_conflicts p))] in
  match ask inp with
  | (msgs, inl e) => stop fs e (out ++ map inl msgs)
  | (_, inr (go, _)) =>
      if negb (String.eqb (PyStr.strip go) "1") then
        stop fs (Exit 0) (out ++ [inr EvCancelled])
      else
        let st := execute fs (plan p) in
        {| ended := Exit 0; fs_end := fs_now st;
           printed := out ++ map inr (log st)
                        ++ [inr (EvResult (moved st) (skipped st))] |}
  end.

(** Lines 131-224: [main], with its prompts. *)
Definition script (fs : FS) (inp : stdin) : session FS :=
  let out := [inl EvBanner] in
  match ask inp with
  | (msgs, inl e) => stop fs e (out ++ map inl msgs)
  | (_, inr (base_in, inp)) =>
      let base_in := PyStr.strip base_in in
      let base_dir := if truthy base_in then base_in else DEFAULT_BASE in
      if negb (fs_exists fs base_dir) || negb (fs_is_dir fs base_dir) then
        stop fs (Exit 1) (out ++ [inl (EvBadBase base_dir)])
      else
        match pick_csv int_max_str_digits base_dir (sorted_csvs fs base_dir)
                path_name inp with
        | (msgs, inl e) => stop fs e (out ++ map inl msgs)
        | (msgs, inr (csv_path, inp)) =>
            let out := out ++ map inl msgs ++ [inl (EvUsing (path_name csv_path))] in
            match load_rows csv_sniff csv_DictReader (read_text fs csv_path) with
            | (msgs, SysExit n) => stop fs (Exit n) (out ++ map inr msgs)
            | (msgs, Return []) =>
                stop fs (Exit 0) (out ++ map inr msgs ++ [inr EvNoValidRows])
            | (msgs, Return rows) =>
                confirm_and_apply fs base_dir rows inp (out ++ map inr msgs)
            end
        end
  end.

End Script.

(** *** Counting the messages of the loop *)

Definition is_renamed (e : event) : bool :=
  match e with EvRenamed _ _ => true | _ => false end.

Definition is_already_ok (e : event) : bool :=
  match e with EvAlreadyOk _ => true | _ => false end.

Definition is_skipped (e : event) : bool :=
  match e with
  | EvOmitted _ _ | EvOmittedDestExists _ _ | EvError _ _ _ => true
  | _ => false
  end.

(** A concrete desk: the directory /data with two CSV files. *)
Module Desk.

Definition name_of (p : path) : string :=
  if String.eqb p "/data/a.csv" then "a.csv"
  else if String.eqb p "/data/b.csv" then "b.csv" else p.

#[global] Instance flat_shell : Shell (gmap string string) :=
  {| fs_is_dir := fun _ p => String.eqb (FlatFS.canon p) "/data";
     sorted_csvs := fun _ _ => ["/data/a.csv"; "/data/b.csv"];
     path_name := name_of;
     read_text := fun fs p => default "" (fs !! FlatFS.canon p) |}.

Definition vol : gmap string string :=
  Scenario.vol [("/data", ""); ("/data/a.csv", "a"); ("/data/b.csv", "b");
                ("/data/2017/04/egreso/20170413.pdf", "pdf")].

Definition one_row : DictReader :=
  Scenario.table ["path"; "folio"; "folio_correcto"]
    [ ["2017/04/egreso"; "20170413"; "17040075"] ].

End Desk.

Section RunVocabulary.

Context {FS : Type} `{FileSystem FS}.

(** Relative to the file system [fs0] on which a plan was made: a path
    that did not exist exists on [fs]. *)
Definition created (fs0 fs : FS) (q : path) : Prop :=
  fs_exists fs0 q = false /\ fs_exists fs q = true.

End RunVocabulary.

Module TwoFiles.

(** Two files and two records with different destinations. *)
Definition vol : gmap string string :=
  Scenario.vol [("/data/f/a.pdf", "x"); ("/data/f/c.pdf", "y")].

Definition rows : list row :=
  [Scenario.mkrow "f" "a" "b" 2; Scenario.mkrow "f" "c" "d" 3].

End TwoFiles.

(** * Properties *)

(** ** Strings *)

Module PyStrFacts.
Import PyStr.

#[local] Arguments String.append !_ _ / : simpl nomatch.

Lemma app_nil_r (s : string) : s +:+ "" = s.
Proof. induction s as [|c s IH]; cbn; [reflexivity | now f_equal]. Qed.

Lemma app_assoc (a b c : string) : (a +:+ b) +:+ c = a +:+ (b +:+ c).
Proof. induction a as [|x a IH]; cbn; [reflexivity | now f_equal]. Qed.

Lemma all_space_app (a b : string) :
  all_space a -> all_space b -> all_space (a +:+ b).
Proof. induction a as [|x a IH]; simpl; intuition. Qed.

Lemma lstrip_split (s : string) :
  exists l, s = l +:+ lstrip s /\ all_space l.
Proof.
  induction s as [|c s [l [Hs Hl]]]; simpl.
  - exists ""; simpl; auto.
  - destruct (is_space c) eqn:Hc.
    + exists (String c l); simpl; split; [now rewrite <- Hs | auto].
    + exists ""; simpl; auto.
Qed.

Lemma lstrip_head (s : string) c s' :
  lstrip s = String c s' -> is_space c = false.
Proof.
  induction s as [|x s IH]; simpl; [discriminate|].
  destruct (is_space x) eqn:Hx; [exact IH|].
  intros [= -> _]; exact Hx.
Qed.

Lemma rstrip_split (s : string) :
  exists r, s = rstrip s +:+ r /\ all_space r.
Proof.
  induction s as [|c s [r [Hs Hr]]]; simpl.
  - exists ""; simpl; auto.
  - destruct (rstrip s) as [|y t] eqn:Ht.
    + destruct (is_space c) eqn:Hc.
      * exists (String c r); simpl in *; split; [now rewrite <- Hs | auto].
      * exists r; simpl in *; split; [now rewrite <- Hs | auto].
    + exists r; simpl in *; split; [now rewrite <- Hs | auto].
Qed.

Lemma rstrip_last (s : string) c s' :
  rstrip s = s' +:+ String c "" -> is_space c = false.
Proof.
  revert s'; induction s as [|x s IH]; intros s'; simpl.
  - destruct s'; discriminate.
  - destruct (rstrip s) as [|y t] eqn:Ht.
    + destruct (is_space x) eqn:Hx.
      * destruct s'; discriminate.
      * destruct s' as [|z s']; simpl.
        -- intros [= ->]; exact Hx.
        -- destruct s'; discriminate.
    + destruct s' as [|z s']; simpl.
      * discriminate.
      * intros [= _ Heq]. exact (IH s' Heq).
Qed.

Lemma rstrip_head (s : string) c s' :
  rstrip s = String c s' -> exists s'', s = String c s''.
Proof.
  destruct s as [|x s]; simpl; [discriminate|].
  destruct (rstrip s); [destruct (is_space x)|]; intros [= -> _]; eauto.
Qed.

Lemma strip_split (s : string) :
  exists l r, s = l +:+ strip s +:+ r /\ all_space l /\ all_space r.
Proof.
  destruct (lstrip_split s) as [l [Hl Hsl]].
  destruct (rstrip_split (lstrip s)) as [r [Hr Hsr]].
  exists l, r. unfold strip. rewrite <- Hr. auto.
Qed.

Lemma strip_trimmed (s : string) : trimmed (strip s).
Proof.
  unfold trimmed, strip; split; intros c s' Heq.
  - destruct (rstrip_head _ _ _ Heq) as [s'' Hs''].
    exact (lstrip_head _ _ _ Hs'').
  - exact (rstrip_last _ _ _ Heq).
Qed.

Lemma endswith_unfold (s suf : string) :
  endswith s suf =
  if String.eqb s suf then true
  else match s with
       | EmptyString => false
       | String _ s' => endswith s' suf
       end.
Proof. destruct s; reflexivity. Qed.

Lemma endswith_iff (s suf : string) :
  endswith s suf = true <-> exists pre, s = pre +:+ suf.
Proof.
  induction s as [|c s IH]; rewrite endswith_unfold.
  - destruct (String.eqb_spec "" suf) as [<-|Hne]; simpl.
    + split; [exists ""; reflexivity | reflexivity].
    + split; [discriminate|]. intros [[|x pre] Hp]; simpl in Hp.
      * contradiction.
      * discriminate.
  - destruct (String.eqb_spec (String c s) suf) as [<-|Hne]; simpl.
    + split; [exists ""; reflexivity | reflexivity].
    + rewrite IH. split.
      * intros [pre ->]. exists (String c pre). reflexivity.
      * intros [[|x pre] Hp]; simpl in Hp.
        -- contradiction.
        -- injection Hp as _ ->. eauto.
Qed.

Lemma lower_app (a b : string) : lower (a +:+ b) = lower a +:+ lower b.
Proof. induction a as [|x a IH]; cbn; [reflexivity | now f_equal]. Qed.

Lemma lower_split (t a b : string) :
  lower t = a +:+ b ->
  exists t1 t2, t = t1 +:+ t2 /\ lower t1 = a /\ lower t2 = b.
Proof.
  revert a; induction t as [|c t IH]; intros a; simpl.
  - destruct a; simpl; [|discriminate]. intros <-. exists "", ""; auto.
  - destruct a as [|x a]; simpl.
    + intros <-. exists "", (String c t); auto.
    + intros [= <- Heq]. destruct (IH _ Heq) as (t1 & t2 & -> & <- & <-).
      exists (String c t1), t2; auto.
Qed.

(** The test of line 26, read on the text itself: some final segment is
    ".pdf" up to the case of its letters. *)
Lemma endswith_lower_iff (t ext : string) :
  endswith (lower t) ext = true <->
  exists stem e, t = stem +:+ e /\ lower e = ext.
Proof.
  rewrite endswith_iff. split.
  - intros [pre Hp]. destruct (lower_split _ _ _ Hp) as (t1 & t2 & -> & _ & <-).
    eauto.
  - intros (stem & e & -> & <-). exists (lower stem). apply lower_app.
Qed.

End PyStrFacts.

(** ** [ensure_pdf] *)

(** C5. For every input string, [ensure_pdf] works on the input with its
    surrounding white space removed (the input is white space, the trimmed
    text, white space, and the trimmed text neither starts nor ends with
    white space); it returns the trimmed text unchanged when a final
    segment of it is ".pdf" up to case, and the trimmed text followed by
    ".pdf" otherwise.  "17010026" gives "17010026.pdf" and "17010026.PDF"
    is returned as it is. *)
Theorem ensure_pdf_spec (name : string) :
  let t := PyStr.strip name in
  (exists l r, name = l +:+ t +:+ r /\ PyStr.all_space l /\ PyStr.all_space r) /\
  PyStr.trimmed t /\
  ((exists stem ext, t = stem +:+ ext /\ PyStr.lower ext = ".pdf") ->
   ensure_pdf name = t) /\
  (~ (exists stem ext, t = stem +:+ ext /\ PyStr.lower ext = ".pdf") ->
   ensure_pdf name = t +:+ ".pdf") /\
  ensure_pdf "17010026" = "17010026.pdf" /\
  ensure_pdf "17010026.PDF" = "17010026.PDF".
Proof.
  intros t. split; [apply PyStrFacts.strip_split|].
  split; [apply PyStrFacts.strip_trimmed|].
  unfold ensure_pdf. fold t.
  destruct (PyStr.endswith (PyStr.lower t) ".pdf") eqn:He; simpl.
  - apply PyStrFacts.endswith_lower_iff in He.
    repeat split; try reflexivity. intros Hn; contradiction.
  - repeat split; try reflexivity.
    intros Hex. apply PyStrFacts.endswith_lower_iff in Hex. congruence.
Qed.

(** ** Dictionaries *)

Section DictFacts.

Context {V : Type}.

Lemma dict_get_set (d : dict V) k v k' :
  dict_get (dict_set d k v) k' = if String.eqb k k' then Some v else dict_get d k'.
Proof.
  induction d as [|[k0 v0] d IH]; simpl.
  - reflexivity.
  - destruct (String.eqb_spec k0 k) as [->|Hne]; simpl.
    + destruct (String.eqb k k'); reflexivity.
    + rewrite IH. destruct (String.eqb_spec k0 k') as [->|Hne'].
      * apply String.eqb_neq in Hne. rewrite String.eqb_sym in Hne.
        now rewrite Hne.
      * reflexivity.
Qed.

Lemma dict_get_In (d : dict V) k v : dict_get d k = Some v -> In (k, v) d.
Proof.
  induction d as [|[k0 v0] d IH]; simpl; [discriminate|].
  destruct (String.eqb_spec k0 k) as [->|Hne].
  - intros [= ->]. now left.
  - intros Hg. right. auto.
Qed.

Lemma In_dict_get (d : dict V) k v : In (k, v) d -> is_Some (dict_get d k).
Proof.
  induction d as [|[k0 v0] d IH]; simpl; [contradiction|].
  intros [[= -> ->]|Hin].
  - rewrite String.eqb_refl. eauto.
  - destruct (String.eqb k0 k); eauto.
Qed.

Lemma In_dict_set (d : dict V) k0 v0 k v :
  In (k, v) (dict_set d k0 v0) -> In (k, v) d \/ (k = k0 /\ v = v0).
Proof.
  induction d as [|[k1 v1] d IH]; simpl.
  - intros [[= <- <-]|[]]. now right.
  - destruct (String.eqb_spec k1 k0) as [->|Hne]; simpl.
    + intros [[= <- <-]|Hin]; [now right | left; now right].
    + intros [Heq|Hin]; [left; now left|].
      destruct (IH Hin) as [Hd|Hnew]; [left; now right | now right].
Qed.

Lemma dict_mem_true (d : dict V) k : dict_mem d k = true <-> is_Some (dict_get d k).
Proof.
  unfold dict_mem. destruct (dict_get d k); split; intros Hx; eauto.
  - discriminate.
  - destruct Hx; discriminate.
Qed.

(** A dictionary filled by a loop over a list: its entries come from the
    start value or from the list, and every key of either is present. *)
Section Filled.

Context {A : Type} (kf : A -> string) (vf : A -> V).

Lemma filled_In l : forall acc k v,
  In (k, v) (filled kf vf l acc) ->
  In (k, v) acc \/ exists x, In x l /\ kf x = k /\ vf x = v.
Proof.
  induction l as [|x l IH]; simpl; intros acc k v Hin; [now left|].
  destruct (IH _ _ _ Hin) as [Hacc|(y & Hy & Hk & Hv)].
  - destruct (In_dict_set _ _ _ _ _ Hacc) as [Hd|[-> ->]]; [now left|].
    right. exists x. auto.
  - right. exists y. auto.
Qed.

Lemma filled_keeps l : forall acc k,
  is_Some (dict_get acc k) -> is_Some (dict_get (filled kf vf l acc) k).
Proof.
  induction l as [|x l IH]; simpl; intros acc k Hs; [exact Hs|].
  apply IH. rewrite dict_get_set. destruct (String.eqb (kf x) k); eauto.
Qed.

Lemma filled_has l : forall acc x,
  In x l -> is_Some (dict_get (filled kf vf l acc) (kf x)).
Proof.
  induction l as [|y l IH]; simpl; intros acc x Hin; [contradiction|].
  destruct Hin as [->|Hin]; [|now apply IH].
  apply filled_keeps. rewrite dict_get_set, String.eqb_refl. eauto.
Qed.

End Filled.

End DictFacts.

(** ** Header resolution *)

Section Headers.

Variable found : list string.

Let field_map := build_field_map found.
Let alt_map := build_alt_map field_map.
Let remapped := build_remapped field_map alt_map.

Lemma field_map_In k h : In (k, h) field_map -> In h found /\ header_key h = k.
Proof.
  intros Hin. apply (filled_In header_key (fun f => f)) in Hin.
  destruct Hin as [[]|(x & Hx & Hk & ->)]. auto.
Qed.

Lemma field_map_get k h :
  dict_get field_map k = Some h -> In h found /\ header_key h = k.
Proof. intros Hg. apply field_map_In. now apply dict_get_In. Qed.

Lemma field_map_direct r : dict_mem field_map r = true <-> direct found r.
Proof.
  rewrite dict_mem_true. split.
  - intros [h Hh]. exists h. now apply field_map_get.
  - intros (h & Hin & <-).
    exact (filled_has header_key (fun f => f) found [] h Hin).
Qed.

Lemma alt_map_get k2 h :
  dict_get alt_map k2 = Some h -> In h found /\ squash (header_key h) = k2.
Proof.
  intros Hg. apply dict_get_In in Hg.
  apply (filled_In (fun kv : string * string => squash kv.1) (fun kv => kv.2)) in Hg.
  destruct Hg as [[]|([k h'] & Hx & Hk & Hv)]. simpl in *. subst.
  destruct (field_map_In _ _ Hx) as [Hin <-]. auto.
Qed.

Lemma alt_map_has h :
  In h found -> is_Some (dict_get alt_map (squash (header_key h))).
Proof.
  intros Hin.
  destruct (filled_has header_key (fun f => f) found [] h Hin) as [h' Hh'].
  apply dict_get_In in Hh'.
  exact (filled_has (fun kv : string * string => squash kv.1) (fun kv => kv.2)
           field_map [] (header_key h, h') Hh').
Qed.

Lemma first_candidate_get h :
  first_candidate alt_map candidates = Some h ->
  In h found /\ (squash (header_key h) = "folio_correcto" \/
                 squash (header_key h) = "foliocorrecto").
Proof.
  unfold candidates; simpl.
  change (squash "folio_correcto") with "folio_correcto".
  change (squash "foliocorrecto") with "foliocorrecto".
  change (squash "folio-correcto") with "folio_correcto".
  change (squash "folio correcto") with "foliocorrecto".
  destruct (dict_get alt_map "folio_correcto") as [a|] eqn:Ha.
  - intros [= <-]. apply alt_map_get in Ha. intuition.
  - destruct (dict_get alt_map "foliocorrecto") as [b|] eqn:Hb.
    + intros [= <-]. apply alt_map_get in Hb. intuition.
    + discriminate.
Qed.

Lemma first_candidate_has : fuzzy found -> is_Some (first_candidate alt_map candidates).
Proof.
  intros (h & Hin & Hsq). apply alt_map_has in Hin.
  unfold candidates; simpl.
  change (squash "folio_correcto") with "folio_correcto".
  change (squash "foliocorrecto") with "foliocorrecto".
  change (squash "folio-correcto") with "folio_correcto".
  change (squash "folio correcto") with "foliocorrecto".
  destruct Hsq as [Hsq|Hsq]; rewrite Hsq in Hin; destruct Hin as [x Hx].
  - rewrite Hx. eauto.
  - destruct (dict_get alt_map "folio_correcto"); [eauto|]. rewrite Hx. eauto.
Qed.

End Headers.

Section Resolution.

Variable found : list string.

Let field_map := build_field_map found.
Let alt_map := build_alt_map field_map.
Let remapped := build_remapped field_map alt_map.

(** What [remapped] holds for each of the three required names. *)
Lemma remapped_path : dict_get remapped "path" = dict_get field_map "path".
Proof.
  unfold remapped, build_remapped, required; cbn [fold_left].
  destruct (dict_get field_map "path"), (dict_get field_map "folio"),
    (dict_get field_map "folio_correcto"),
    (first_candidate alt_map candidates); reflexivity.
Qed.

Lemma remapped_folio : dict_get remapped "folio" = dict_get field_map "folio".
Proof.
  unfold remapped, build_remapped, required; cbn [fold_left].
  destruct (dict_get field_map "path"), (dict_get field_map "folio"),
    (dict_get field_map "folio_correcto"),
    (first_candidate alt_map candidates); reflexivity.
Qed.

Lemma remapped_folio_correcto :
  dict_get remapped "folio_correcto" =
  match dict_get field_map "folio_correcto" with
  | Some h => Some h
  | None => first_candidate alt_map candidates
  end.
Proof.
  unfold remapped, build_remapped, required; cbn [fold_left].
  destruct (dict_get field_map "path"), (dict_get field_map "folio"),
    (dict_get field_map "folio_correcto"),
    (first_candidate alt_map candidates); reflexivity.
Qed.

Lemma not_in_nil {V} (d : dict V) :
  not_in d required = [] <->
  is_Some (dict_get d "path") /\ is_Some (dict_get d "folio") /\
  is_Some (dict_get d "folio_correcto").
Proof.
  unfold not_in, required, dict_mem; simpl.
  destruct (dict_get d "path"), (dict_get d "folio"),
    (dict_get d "folio_correcto"); simpl;
    (split; [ intros Hnil; try discriminate Hnil; repeat split; eauto
            | intros (Ha & Hb & Hc); try reflexivity; exfalso;
              first [ destruct Ha; discriminate | destruct Hb; discriminate
                    | destruct Hc; discriminate ] ]).
Qed.

Lemma direct_get r : direct found r -> is_Some (dict_get field_map r).
Proof. intros Hd. apply dict_mem_true. now apply field_map_direct. Qed.

Lemma get_direct r h : dict_get field_map r = Some h -> direct found r.
Proof. intros Hg. apply field_map_direct, dict_mem_true. eauto. Qed.

Lemma none_not_direct r : dict_get field_map r = None -> ~ direct found r.
Proof. intros Hg Hd. apply direct_get in Hd. destruct Hd; congruence. Qed.

Lemma not_fuzzy_name r :
  In r required -> r <> "folio_correcto" -> resolvable found r -> direct found r.
Proof. intros _ Hne [Hd|[-> _]]; [exact Hd | contradiction]. Qed.

Lemma resolve_columns_some :
  (forall r, In r required -> resolvable found r) ->
  exists fm, resolve_columns (Some found) = ([], Return fm) /\
    forall r, In r required -> exists h, dict_get fm r = Some h /\ answers found r h.
Proof.
  intros Hall.
  assert (Hp : is_Some (dict_get field_map "path")).
  { apply direct_get, not_fuzzy_name; [simpl; auto | discriminate | apply Hall; simpl; auto]. }
  assert (Hf : is_Some (dict_get field_map "folio")).
  { apply direct_get, not_fuzzy_name; [simpl; auto | discriminate | apply Hall; simpl; auto]. }
  assert (Hc : resolvable found "folio_correcto") by (apply Hall; simpl; auto).
  unfold resolve_columns. change (default [] (Some found)) with found.
  cbv zeta. fold field_map.
  destruct (not_in field_map required) as [|m ms] eqn:Hmiss.
  - exists field_map. split; [reflexivity|].
    intros r Hr. apply not_in_nil in Hmiss. destruct Hmiss as (H1 & H2 & H3).
    assert (Hs : is_Some (dict_get field_map r)).
    { destruct Hr as [<-|[<-|[<-|[]]]]; assumption. }
    destruct Hs as [h Hh]. exists h. split; [exact Hh|].
    apply field_map_get in Hh. destruct Hh. split; auto.
  - fold alt_map. fold remapped.
    assert (Hrc : is_Some (dict_get remapped "folio_correcto")).
    { rewrite remapped_folio_correcto.
      destruct (dict_get field_map "folio_correcto") eqn:Hd; [eauto|].
      destruct Hc as [Hd'|[_ Hfz]].
      - apply direct_get in Hd'. destruct Hd'; congruence.
      - now apply first_candidate_has. }
    destruct (not_in remapped required) as [|m' ms'] eqn:Hmiss2.
    + exists remapped. split; [reflexivity|].
      intros r [<-|[<-|[<-|[]]]].
      * rewrite remapped_path. destruct Hp as [h Hh]. exists h. split; [exact Hh|].
        apply field_map_get in Hh. destruct Hh. split; auto.
      * rewrite remapped_folio. destruct Hf as [h Hh]. exists h. split; [exact Hh|].
        apply field_map_get in Hh. destruct Hh. split; auto.
      * rewrite remapped_folio_correcto in *.
        destruct (dict_get field_map "folio_correcto") as [h|] eqn:Hd.
        -- exists h. split; [reflexivity|].
           apply field_map_get in Hd. destruct Hd. split; auto.
        -- destruct Hrc as [h Hh]. exists h. split; [exact Hh|].
           apply first_candidate_get in Hh. destruct Hh as [Hin Hsq].
           split; [exact Hin|]. right. split; [reflexivity|].
           split; [now apply none_not_direct | exact Hsq].
    + exfalso.
      assert (Hnil : not_in remapped required = []).
      { apply not_in_nil. rewrite remapped_path, remapped_folio. auto. }
      congruence.
Qed.

Lemma resolve_columns_return out fm :
  resolve_columns (Some found) = (out, Return fm) ->
  out = [] /\ forall r, In r required -> resolvable found r.
Proof.
  unfold resolve_columns. change (default [] (Some found)) with found.
  cbv zeta. fold field_map.
  destruct (not_in field_map required) as [|m ms] eqn:Hmiss.
  - intros [= <- <-]. split; [reflexivity|].
    apply not_in_nil in Hmiss. destruct Hmiss as (H1 & H2 & H3).
    intros r [<-|[<-|[<-|[]]]]; left.
    + destruct H1 as [h Hh]. exact (get_direct _ _ Hh).
    + destruct H2 as [h Hh]. exact (get_direct _ _ Hh).
    + destruct H3 as [h Hh]. exact (get_direct _ _ Hh).
  - fold alt_map. fold remapped.
    destruct (not_in remapped required) as [|m' ms'] eqn:Hmiss2; [|discriminate].
    intros [= <- <-]. split; [reflexivity|].
    apply not_in_nil in Hmiss2.
    rewrite remapped_path, remapped_folio, remapped_folio_correcto in Hmiss2.
    destruct Hmiss2 as (H1 & H2 & H3).
    intros r [<-|[<-|[<-|[]]]].
    + left. destruct H1 as [h Hh]. exact (get_direct _ _ Hh).
    + left. destruct H2 as [h Hh]. exact (get_direct _ _ Hh).
    + destruct (dict_get field_map "folio_correcto") as [h|] eqn:Hd.
      * left. exact (get_direct _ _ Hd).
      * right. split; [reflexivity|]. destruct H3 as [h Hh].
        apply first_candidate_get in Hh. destruct Hh as [Hin Hsq].
        exists h. auto.
Qed.

Lemma resolve_columns_cases :
  (exists fm, resolve_columns (Some found) = ([], Return fm)) \/
  resolve_columns (Some found) =
    ([EvSchemaError "path, folio, folio_correcto" (PyStr.join ", " found)],
     SysExit 1).
Proof.
  unfold resolve_columns. change (default [] (Some found)) with found.
  cbv zeta.
  destruct (not_in _ required); [left; eauto|].
  destruct (not_in _ required); [left; eauto|].
  right. reflexivity.
Qed.

End Resolution.

Lemma resolve_columns_default names :
  resolve_columns names = resolve_columns (Some (default [] names)).
Proof. destruct names; reflexivity. Qed.

(** ** Ingestion *)

Lemma resolve_columns_exit (names : option (list string)) :
  (exists r, In r required /\ ~ resolvable (default [] names) r) ->
  resolve_columns names =
    ([EvSchemaError "path, folio, folio_correcto"
        (PyStr.join ", " (default [] names))],
     SysExit 1).
Proof.
  intros (r & Hr & Hnr). rewrite resolve_columns_default.
  destruct (resolve_columns_cases (default [] names)) as [[fm Hfm]|Hexit];
    [|exact Hexit].
  apply resolve_columns_return in Hfm. destruct Hfm as [_ Hall].
  exfalso. apply Hnr, Hall, Hr.
Qed.

(** C4 (as amended). Header resolution succeeds exactly when [path] and
    [folio] are found directly (some header, trimmed and lower-cased, is
    the name) and [folio_correcto] is found directly or, failing that,
    through the candidates: some header key, with its spaces removed and
    its hyphens turned into underscores, is "folio_correcto" or
    "foliocorrecto".  The map returned sends every required name to a
    header that answers for it in that way.  When some required name is
    not resolvable in this sense the schema error is reported and the run
    ends with status 1. *)
Theorem resolve_columns_spec (names : option (list string)) :
  let found := default [] names in
  ((forall r, In r required -> resolvable found r) ->
   exists fm, resolve_columns names = ([], Return fm) /\
     forall r, In r required -> exists h, dict_get fm r = Some h /\ answers found r h) /\
  ((exists r, In r required /\ ~ resolvable found r) ->
   resolve_columns names =
     ([EvSchemaError "path, folio, folio_correcto" (PyStr.join ", " found)],
      SysExit 1)).
Proof.
  intros found. split.
  - rewrite resolve_columns_default. fold found. apply resolve_columns_some.
  - apply resolve_columns_exit.
Qed.

(** C4 (as stated) fails.  With the header "path, fo lio, folio_correcto"
    every required name is resolved by the resolution the specification
    words (the stripped key of "fo lio" is "folio"), yet the script ends
    with the schema error: only [folio_correcto] is looked up through the
    candidates.  With the header "path, folio, folio-correc-to" stripping
    hyphens gives "foliocorrecto", a stripped synonym, yet the script ends
    with the schema error: hyphens become underscores. *)
Lemma resolve_columns_not_every_column :
  forallb (worded_resolvable ["path"; "fo lio"; "folio_correcto"]) required = true /\
  (resolve_columns (Some ["path"; "fo lio"; "folio_correcto"])).2 = SysExit 1 /\
  forallb (worded_resolvable ["path"; "folio"; "folio-correc-to"]) required = true /\
  (resolve_columns (Some ["path"; "folio"; "folio-correc-to"])).2 = SysExit 1.
Proof. repeat split; vm_compute; reflexivity. Qed.

Lemma contains_char_occurs c s : PyStr.contains_char c s = true <-> PyStr.occurs c s.
Proof.
  unfold PyStr.occurs. induction s as [|x s IH]; simpl.
  - split; [discriminate|]. intros ([|y a] & b & Heq); discriminate.
  - destruct (Ascii.eqb_spec c x) as [->|Hne]; simpl.
    + split; [|reflexivity]. intros _. exists "", s. reflexivity.
    + rewrite IH. split.
      * intros (a & b & ->). exists (String x a), b. reflexivity.
      * intros ([|y a] & b & Heq); injection Heq as Hx Hs.
        -- congruence.
        -- eauto.
Qed.

Lemma take_prefix n : forall s,
  exists rest, s = PyStr.take n s +:+ rest /\
    String.length (PyStr.take n s) = Nat.min n (String.length s).
Proof.
  induction n as [|n IH]; intros s.
  - exists s. destruct s; auto.
  - destruct s as [|c s]; simpl.
    + exists "". auto.
    + destruct (IH s) as (rest & Hs & Hl). exists rest. split.
      * change (String c s = String c (PyStr.take n s +:+ rest)). now rewrite <- Hs.
      * now rewrite Hl.
Qed.

(** C8. When the sniffer raises on the sample (the first 2048 characters
    of the file), the dialect used to read the file has as delimiter the
    comma if the sample contains one, else the tab if the sample contains
    one, else the semicolon; its quote character is the double quote,
    doubled quotes are on and blanks after a delimiter are skipped. *)
Theorem sniff_fallback (csv_sniff : string -> list ascii -> option Dialect)
    (csv_DictReader : string -> Dialect -> DictReader) (text : string) :
  let sample := PyStr.take 2048 text in
  csv_sniff sample [","%char; ";"%char; tab; "|"%char] = None ->
  let d := sniff_csv_dialect csv_sniff text in
  (exists rest, text = sample +:+ rest /\
     String.length sample = Nat.min 2048 (String.length text)) /\
  (PyStr.occurs ","%char sample -> delimiter d = ","%char) /\
  (~ PyStr.occurs ","%char sample -> PyStr.occurs tab sample -> delimiter d = tab) /\
  (~ PyStr.occurs ","%char sample -> ~ PyStr.occurs tab sample ->
   delimiter d = ";"%char) /\
  quotechar d = Some "034"%char /\ doublequote d = true /\
  skipinitialspace d = true /\
  load_rows csv_sniff csv_DictReader text =
  load_rows csv_sniff (fun t _ => csv_DictReader t (SimpleDialect sample)) text.
Proof.
  intros sample Hfail d.
  assert (Hd : d = SimpleDialect sample).
  { unfold d, sniff_csv_dialect. fold sample. now rewrite Hfail. }
  split; [apply take_prefix|].
  rewrite Hd. unfold SimpleDialect at 1 2 3; simpl.
  destruct (PyStr.contains_char "," sample) eqn:Hc;
    [| destruct (PyStr.contains_char tab sample) eqn:Ht ].
  - apply contains_char_occurs in Hc. repeat split; try reflexivity; try tauto.
    unfold load_rows. fold d. now rewrite Hd.
  - apply contains_char_occurs in Ht.
    assert (~ PyStr.occurs "," sample).
    { intros Ho. apply contains_char_occurs in Ho. congruence. }
    repeat split; try reflexivity; try tauto.
    unfold load_rows. fold d. now rewrite Hd.
  - assert (~ PyStr.occurs "," sample).
    { intros Ho. apply contains_char_occurs in Ho. congruence. }
    assert (~ PyStr.occurs tab sample).
    { intros Ho. apply contains_char_occurs in Ho. congruence. }
    repeat split; try reflexivity; try tauto.
    unfold load_rows. fold d. now rewrite Hd.
Qed.

(** An instance: a sample with semicolons only. *)
Lemma sniff_fallback_witness :
  FlatFS.no_sniff (PyStr.take 2048 "path;folio;folio correcto")
    [","%char; ";"%char; tab; "|"%char] = None /\
  delimiter (sniff_csv_dialect FlatFS.no_sniff "path;folio;folio correcto") = ";"%char.
Proof.
  split; [reflexivity|].
  destruct (sniff_fallback FlatFS.no_sniff
              (FlatFS.fixed_reader Scenario.corrections)
              "path;folio;folio correcto" eq_refl)
    as (_ & _ & _ & Hsemi & _).
  apply Hsemi; intros Ho; apply contains_char_occurs in Ho; discriminate Ho.
Defined.

Lemma rows_loop_spec (fm : dict string) : forall raws i rows out,
  rows_loop fm i raws rows out =
  (rows ++ omap (kept fm) (enumerate_from i raws),
   out ++ omap (reported fm) (enumerate_from i raws)).
Proof.
  induction raws as [|raw raws IH]; intros i rows out; simpl.
  - now rewrite !app_nil_r.
  - unfold kept, reported; simpl.
    destruct (extract fm raw) as [e|[[p f] c]].
    + rewrite IH, <- app_assoc. reflexivity.
    + destruct (truthy p && truthy f && truthy c); simpl; rewrite IH.
      * rewrite <- app_assoc. reflexivity.
      * rewrite <- app_assoc. reflexivity.
Qed.

Lemma extract_cells fm raw :
  extract fm raw =
  (vp <-! cell fm raw "path" ;;
   vf <-! cell fm raw "folio" ;;
   vc <-! cell fm raw "folio_correcto" ;;
   inr (PyStr.strip (or_empty vp), PyStr.strip (or_empty vf),
        PyStr.strip (or_empty vc))).
Proof.
  unfold extract, cell, bind.
  destruct (getitem fm "path") as [e|kp]; [reflexivity|].
  destruct (getitem raw kp); [reflexivity|].
  destruct (getitem fm "folio") as [e|kf]; [reflexivity|].
  destruct (getitem raw kf); [reflexivity|].
  destruct (getitem fm "folio_correcto") as [e|kc]; reflexivity.
Qed.

Lemma truthy_iff s : truthy s = true <-> s <> "".
Proof.
  unfold truthy. destruct (String.eqb_spec s ""); simpl; split; congruence.
Qed.

Lemma truthy_all p f c :
  truthy p && truthy f && truthy c = true <-> p <> "" /\ f <> "" /\ c <> "".
Proof. rewrite !andb_true_iff, !truthy_iff. tauto. Qed.

Lemma truthy_some p f c :
  truthy p && truthy f && truthy c = false <-> p = "" \/ f = "" \/ c = "".
Proof.
  unfold truthy.
  destruct (String.eqb_spec p ""), (String.eqb_spec f ""), (String.eqb_spec c "");
    simpl; split; intros Hx; try tauto; try discriminate.
Qed.

(** C7. Once the header is resolved to [fm], loading never aborts: it
    returns, in the order of the file, the records of the rows kept, and
    prints one message for every other row.  Rows are numbered from 2 and
    a record keeps the number of its row.  A row is kept when its three
    columns are present and their values, with [None] read as empty and
    white space trimmed, are all non-empty, and the record holds those
    trimmed values; a row whose three columns are present but with an empty
    trimmed value is reported as incomplete; a row for which a lookup
    raises [KeyError] is reported with that error; a row is reported
    exactly when it is not kept. *)
Theorem load_rows_spec (csv_sniff : string -> list ascii -> option Dialect)
    (csv_DictReader : string -> Dialect -> DictReader) (text : string)
    (out : list event) (fm : dict string) :
  let reader := csv_DictReader text (sniff_csv_dialect csv_sniff text) in
  let numbered := enumerate_from 2 (data_rows reader) in
  resolve_columns (fieldnames reader) = (out, Return fm) ->
  load_rows csv_sniff csv_DictReader text =
    (out ++ omap (reported fm) numbered, Return (omap (kept fm) numbered)) /\
  (forall i raw r,
     kept fm (i, raw) = Some r <->
     exists vp vf vc,
       cell fm raw "path" = inr vp /\ cell fm raw "folio" = inr vf /\
       cell fm raw "folio_correcto" = inr vc /\
       r = {| rel_path := PyStr.strip (or_empty vp);
              folio := PyStr.strip (or_empty vf);
              folio_ok := PyStr.strip (or_empty vc);
              rownum := i |} /\
       rel_path r <> "" /\ folio r <> "" /\ folio_ok r <> "") /\
  (forall i raw ev,
     reported fm (i, raw) = Some ev ->
     (ev = EvRowIncomplete i /\
      exists vp vf vc,
        cell fm raw "path" = inr vp /\ cell fm raw "folio" = inr vf /\
        cell fm raw "folio_correcto" = inr vc /\
        (PyStr.strip (or_empty vp) = "" \/ PyStr.strip (or_empty vf) = "" \/
         PyStr.strip (or_empty vc) = "")) \/
     (exists e, ev = EvRowKeyError i e /\ extract fm raw = inl e)) /\
  (forall ir, reported fm ir = None <-> is_Some (kept fm ir)).
Proof.
  intros reader numbered Hcols. split; [|split; [|split]].
  - unfold load_rows. fold reader. rewrite Hcols.
    rewrite rows_loop_spec. reflexivity.
  - intros i raw r. unfold kept; simpl. rewrite extract_cells. unfold bind.
    destruct (cell fm raw "path") as [e|vp];
      [split; [discriminate | intros (?&?&?&?&_); discriminate]|].
    destruct (cell fm raw "folio") as [e|vf];
      [split; [discriminate | intros (?&?&?&_&?&_); discriminate]|].
    destruct (cell fm raw "folio_correcto") as [e|vc];
      [split; [discriminate | intros (?&?&?&_&_&?&_); discriminate]|].
    destruct (truthy _ && truthy _ && truthy _) eqn:Ht.
    + apply truthy_all in Ht. split.
      * intros [= <-]. exists vp, vf, vc. simpl. tauto.
      * intros (a & b & c & [= <-] & [= <-] & [= <-] & -> & _). reflexivity.
    + apply truthy_some in Ht. split; [discriminate|].
      intros (a & b & c & [= <-] & [= <-] & [= <-] & -> & Hp & Hf & Hc).
      simpl in *. tauto.
  - intros i raw ev. unfold reported; simpl.
    destruct (extract fm raw) as [e|[[p f] c]] eqn:Hex.
    + intros [= <-]. right. eauto.
    + destruct (truthy p && truthy f && truthy c) eqn:Ht; [discriminate|].
      intros [= <-]. left. split; [reflexivity|].
      apply truthy_some in Ht. rewrite extract_cells in Hex. unfold bind in Hex.
      destruct (cell fm raw "path") as [e|vp]; [discriminate|].
      destruct (cell fm raw "folio") as [e|vf]; [discriminate|].
      destruct (cell fm raw "folio_correcto") as [e|vc]; [discriminate|].
      injection Hex as <- <- <-. exists vp, vf, vc. tauto.
  - intros [i raw]. unfold reported, kept; simpl.
    destruct (extract fm raw) as [e|[[p f] c]].
    + split; [discriminate | intros [x Hx]; discriminate].
    + destruct (truthy p && truthy f && truthy c); split; eauto;
        try discriminate. intros [x Hx]; discriminate.
Qed.

(** An instance: of three rows, the first is kept and numbered 2, the
    second has a blank folio and the third lacks its last field. *)
Lemma load_rows_spec_witness :
  resolve_columns (fieldnames Scenario.corrections) =
    ([], Return [("path", "Path"); ("folio", "Folio");
                 ("folio_correcto", "Folio Correcto")]) /\
  load_rows FlatFS.no_sniff (FlatFS.fixed_reader Scenario.corrections) "" =
    ([EvRowIncomplete 3; EvRowIncomplete 4],
     Return [Scenario.mkrow "2017/04/egreso" "20170413" "17040075" 2]).
Proof.
  split; [reflexivity|].
  exact (proj1 (load_rows_spec FlatFS.no_sniff
                  (FlatFS.fixed_reader Scenario.corrections) "" [] _ eq_refl)).
Defined.

(** A row that lacks the column of [folio] is reported with the key. *)
Example rows_loop_key_error :
  rows_loop [("path", "path"); ("folio", "folio");
             ("folio_correcto", "folio_correcto")] 2 Scenario.ragged [] [] =
  ([], [EvRowKeyError 2 (KeyErr "folio")]).
Proof. reflexivity. Qed.

(** C6. When some required column is not resolvable (neither directly
    nor, for [folio_correcto], through the candidates), loading prints the
    schema error, which names the required columns and the header names
    found, and leaves through [sys.exit(1)]; the run ends with status 1,
    with the file system as it was and nothing else printed: no row is
    parsed and no plan is made or applied. *)
Theorem schema_error_halts {FS : Type} `{FileSystem FS}
    (csv_sniff : string -> list ascii -> option Dialect)
    (csv_DictReader : string -> Dialect -> DictReader)
    (fs : FS) (base_dir : path) (text go : string) :
  let reader := csv_DictReader text (sniff_csv_dialect csv_sniff text) in
  let found := default [] (fieldnames reader) in
  let report :=
    EvSchemaError "path, folio, folio_correcto" (PyStr.join ", " found) in
  (exists r, In r required /\ ~ resolvable found r) ->
  load_rows csv_sniff csv_DictReader text = ([report], SysExit 1) /\
  main csv_sniff csv_DictReader fs base_dir text go =
    {| exit_status := 1; fs_after := fs; output := [report] |}.
Proof.
  intros reader found report Hbad.
  assert (Hload : load_rows csv_sniff csv_DictReader text = ([report], SysExit 1)).
  { unfold load_rows. fold reader.
    rewrite (resolve_columns_exit (fieldnames reader) Hbad).
    reflexivity. }
  split; [exact Hload|]. unfold main. rewrite Hload. reflexivity.
Qed.

(** An instance: the header "carpeta, folio" has no column for [path]. *)
Lemma schema_error_halts_witness :
  main FlatFS.no_sniff (FlatFS.fixed_reader Scenario.wrong_header)
    (Scenario.vol [("/data/2017/04/egreso/20170413.pdf", "a")]) "/data" "" "1" =
  {| exit_status := 1;
     fs_after := Scenario.vol [("/data/2017/04/egreso/20170413.pdf", "a")];
     output := [EvSchemaError "path, folio, folio_correcto" "carpeta, folio"] |}.
Proof.
  refine (proj2 (schema_error_halts FlatFS.no_sniff
                   (FlatFS.fixed_reader Scenario.wrong_header)
                   (Scenario.vol [("/data/2017/04/egreso/20170413.pdf", "a")])
                   "/data" "" "1" _)).
  exists "path". split; [simpl; auto|].
  intros [(h & Hin & Hk)|[Hne _]]; [|discriminate Hne].
  destruct Hin as [<-|[<-|[]]]; discriminate Hk.
Defined.

(** ** The planner *)

Section PlannerFacts.

Context {FS : Type} `{FileSystem FS}.

Variables (fs : FS) (base_dir : path).

Lemma plan_step_entry st r :
  plan_step fs base_dir st r =
  let it := entry_of fs base_dir r in
  {| plan := plan st ++ [it];
     n_exists := n_exists st + (if source_found fs it then 1 else 0);
     n_missing := n_missing st + (if source_found fs it then 0 else 1);
     n_conflicts := n_conflicts st + (if in_conflict fs it then 1 else 0);
     preview := preview st ++ [preview_of fs base_dir r] |}.
Proof.
  unfold plan_step, entry_of, preview_of, source_found, in_conflict.
  destruct (paths_of fs base_dir r) as [s d]; cbn [fst snd src dst].
  destruct (fs_exists fs s); cbn [andb];
    [destruct (fs_exists fs d && negb (same_file fs s d))|];
    f_equal; lia.
Qed.

Lemma fold_plan_step rows : forall st,
  let its := map (entry_of fs base_dir) rows in
  fold_left (plan_step fs base_dir) rows st =
  {| plan := plan st ++ its;
     n_exists := n_exists st + length (List.filter (source_found fs) its);
     n_missing :=
       n_missing st + length (List.filter (fun it => negb (source_found fs it)) its);
     n_conflicts := n_conflicts st + length (List.filter (in_conflict fs) its);
     preview := preview st ++ map (preview_of fs base_dir) rows |}.
Proof.
  induction rows as [|r rows IH]; intros st; simpl.
  - destruct st; simpl. rewrite !app_nil_r, !Nat.add_0_r. reflexivity.
  - rewrite IH, plan_step_entry; simpl.
    destruct (source_found fs (entry_of fs base_dir r)),
      (in_conflict fs (entry_of fs base_dir r)); simpl;
      rewrite <- !app_assoc; simpl; f_equal; lia.
Qed.

Lemma make_plan_eq rows :
  let its := map (entry_of fs base_dir) rows in
  make_plan fs base_dir rows =
  {| plan := its;
     n_exists := length (List.filter (source_found fs) its);
     n_missing := length (List.filter (fun it => negb (source_found fs it)) its);
     n_conflicts := length (List.filter (in_conflict fs) its);
     preview := map (preview_of fs base_dir) rows |}.
Proof. unfold make_plan. rewrite fold_plan_step. reflexivity. Qed.

Lemma filter_split {A} (f : A -> bool) (l : list A) :
  length (List.filter f l) + length (List.filter (fun x => negb (f x)) l) = length l.
Proof. induction l as [|x l IH]; simpl; [reflexivity|]. destruct (f x); simpl; lia. Qed.

Lemma filter_le {A} (f g : A -> bool) (l : list A) :
  (forall x, f x = true -> g x = true) ->
  length (List.filter f l) <= length (List.filter g l).
Proof.
  intros Hfg. induction l as [|x l IH]; simpl; [lia|].
  destruct (f x) eqn:Hf.
  - rewrite (Hfg _ Hf). simpl. lia.
  - destruct (g x); simpl; lia.
Qed.

Lemma can_move_of_iff s d :
  can_move_of fs s d = true <->
  fs_exists fs s = true /\
  (fs_exists fs d = false \/ fs_resolve fs s = fs_resolve fs d).
Proof.
  unfold can_move_of, same_file.
  rewrite andb_true_iff, orb_true_iff, negb_true_iff, String.eqb_eq. tauto.
Qed.

End PlannerFacts.

(** C9. Planning yields one entry per record, in the order of the
    records (entry [k] carries the row number and the paths of record
    [k]); the number of sources found and the number of sources missing
    count the entries whose source exists and does not exist, so that
    together they are the number of records; the conflicts count entries
    whose source exists, hence are at most the sources found. *)
Theorem make_plan_counts {FS : Type} `{FileSystem FS}
    (fs : FS) (base_dir : path) (rows : list row) :
  let p := make_plan fs base_dir rows in
  plan p = map (entry_of fs base_dir) rows /\
  length (plan p) = length rows /\
  map item_rownum (plan p) = map rownum rows /\
  n_exists p = length (List.filter (source_found fs) (plan p)) /\
  n_missing p = length (List.filter (fun it => negb (source_found fs it)) (plan p)) /\
  n_conflicts p = length (List.filter (in_conflict fs) (plan p)) /\
  n_exists p + n_missing p = length rows /\
  n_conflicts p <= n_exists p.
Proof.
  intros p. unfold p. rewrite make_plan_eq. simpl.
  repeat split.
  - now rewrite length_map.
  - rewrite map_map. reflexivity.
  - rewrite filter_split. now rewrite length_map.
  - apply filter_le. intros it. unfold in_conflict, source_found.
    rewrite !andb_true_iff. tauto.
Qed.

(** C2. For every record, the entry planned for it has the paths derived
    from the record, and its [can_move] flag is true exactly when the
    source exists and the destination does not exist or resolves to what
    the source resolves to.  The comparison is on resolved paths, not on
    the text: on a case-insensitive volume holding [a.pdf], the record
    that renames [a] to [A] has textually different paths, an existing
    destination, and is marked movable. *)
Theorem can_move_iff {FS : Type} `{FileSystem FS}
    (fs : FS) (base_dir : path) (rows : list row) :
  Forall2
    (fun r it =>
       (src it, dst it) = paths_of fs base_dir r /\
       (can_move it = true <->
        fs_exists fs (src it) = true /\
        (fs_exists fs (dst it) = false \/
         fs_resolve fs (src it) = fs_resolve fs (dst it))))
    rows (plan (make_plan fs base_dir rows)) /\
  (let v := Scenario.vol [("/data/f/a.pdf", "x")] in
   let it := entry_of v "/data" (Scenario.mkrow "f" "a" "A" 2) in
   src it <> dst it /\ fs_exists v (dst it) = true /\ can_move it = true).
Proof.
  split.
  - rewrite make_plan_eq. cbn [plan].
    induction rows as [|r rows IH]; simpl; constructor; [|exact IH].
    split.
    + unfold entry_of; cbn [src dst]. now destruct (paths_of fs base_dir r).
    + unfold entry_of; cbn [can_move src dst]. apply can_move_of_iff.
  - split; [|split]; vm_compute; [discriminate | reflexivity | reflexivity].
Qed.

(** ** The loop that applies the plan *)

Section ExecFacts.

Context {FS : Type} `{FileSystem FS}.

Lemma execute_from_app (st : exec_state) p1 p2 :
  execute_from st (p1 ++ p2) = execute_from (execute_from st p1) p2.
Proof. apply fold_left_app. Qed.

Lemma reached_S (fs : FS) p k it :
  p !! k = Some it -> reached fs p (S k) = exec_step (reached fs p k) it.
Proof.
  intros Hk. unfold reached, execute.
  rewrite (take_S_r _ _ _ Hk), execute_from_app. reflexivity.
Qed.

Lemma reached_rest (fs : FS) p k :
  execute fs p = execute_from (reached fs p k) (drop k p).
Proof.
  unfold reached, execute. rewrite <- execute_from_app, take_drop. reflexivity.
Qed.

(** What one iteration does, by cases. *)
Lemma exec_step_cannot_move (st : exec_state) it :
  can_move it = false ->
  exec_step st it =
  {| fs_now := fs_now st; moved := moved st; skipped := S (skipped st);
     log := log st ++ [EvOmitted (src it) (dst it)] |}.
Proof. intros Hc. unfold exec_step. now rewrite Hc. Qed.

Lemma exec_step_taken (st : exec_state) it :
  fs_exists (fs_now st) (dst it) = true ->
  same_file (fs_now st) (src it) (dst it) = false ->
  exec_step st it =
  {| fs_now := fs_now st; moved := moved st; skipped := S (skipped st);
     log := log st ++ [if can_move it
                       then EvOmittedDestExists (src it) (dst it)
                       else EvOmitted (src it) (dst it)] |}.
Proof.
  intros He Hs. unfold exec_step. rewrite He, Hs.
  destruct (can_move it); reflexivity.
Qed.

Lemma exec_step_same (st : exec_state) it :
  can_move it = true -> same_file (fs_now st) (src it) (dst it) = true ->
  exec_step st it =
  {| fs_now := fs_now st; moved := moved st; skipped := skipped st;
     log := log st ++ [EvAlreadyOk (src it)] |}.
Proof. intros Hc Hs. unfold exec_step. now rewrite Hc, Hs. Qed.

Lemma exec_step_counts (st : exec_state) it :
  moved (exec_step st it) + skipped (exec_step st it) <= S (moved st + skipped st).
Proof.
  unfold exec_step.
  destruct (can_move it); simpl; [|lia].
  destruct (same_file _ _ _); simpl; [lia|].
  destruct (fs_exists _ _); simpl; [lia|].
  destruct (fs_rename _ _ _); simpl; lia.
Qed.

Lemma execute_from_counts p : forall st : exec_state,
  moved (execute_from st p) + skipped (execute_from st p)
  <= moved st + skipped st + length p.
Proof.
  unfold execute_from.
  induction p as [|it p IH]; intros st; simpl; [lia|].
  specialize (IH (exec_step st it)).
  pose proof (exec_step_counts st it). lia.
Qed.

Lemma reached_counts (fs : FS) p k :
  moved (reached fs p k) + skipped (reached fs p k) <= k.
Proof.
  unfold reached, execute.
  pose proof (execute_from_counts (take k p) (exec_init fs)) as Hc.
  simpl in Hc. rewrite length_take in Hc. lia.
Qed.

End ExecFacts.

(** C1. Take an entry of the plan made on [fs0] whose destination exists
    and is another file than its source, be it when the plan is made or
    when the loop reaches the entry.  The iteration for that entry leaves
    the file system as it is, adds one to the skipped count, leaves the
    moved count as it is and prints that the entry is omitted: nothing is
    renamed onto the destination. *)
Theorem conflict_never_renamed {FS : Type} `{FileSystem FS}
    (fs0 : FS) (base_dir : path) (rows : list row) (k : nat) (it : item) :
  let p := plan (make_plan fs0 base_dir rows) in
  let st := reached fs0 p k in
  let st' := reached fs0 p (S k) in
  p !! k = Some it ->
  (fs_exists fs0 (dst it) = true /\ same_file fs0 (src it) (dst it) = false) \/
  (fs_exists (fs_now st) (dst it) = true /\
   same_file (fs_now st) (src it) (dst it) = false) ->
  fs_now st' = fs_now st /\
  moved st' = moved st /\
  skipped st' = S (skipped st) /\
  (log st' = log st ++ [EvOmitted (src it) (dst it)] \/
   log st' = log st ++ [EvOmittedDestExists (src it) (dst it)]).
Proof.
  intros p st st' Hk Hcond. unfold st'. rewrite (reached_S _ _ _ _ Hk). fold st.
  destruct Hcond as [[He Hs]|[He Hs]].
  - assert (Hc : can_move it = false).
    { unfold p in Hk. rewrite make_plan_eq in Hk. cbn [plan] in Hk.
      rewrite list_lookup_fmap in Hk.
      destruct (rows !! k) as [r|]; [|discriminate].
      injection Hk as <-. unfold entry_of in *. cbn [can_move src dst] in *.
      unfold can_move_of. rewrite He, Hs. now rewrite andb_false_r. }
    rewrite (exec_step_cannot_move _ _ Hc). simpl. auto.
  - rewrite (exec_step_taken _ _ He Hs). simpl.
    destruct (can_move it); auto.
Qed.

(** An instance: both files are present in the folder. *)
Lemma conflict_never_renamed_witness :
  let v := Scenario.conflict_vol in
  let p := plan (make_plan v "/data" Scenario.conflict_rows) in
  p !! 0 = Some {| item_rownum := 2;
                   src := "/data/2017/04/egreso/20170421.pdf";
                   dst := "/data/2017/04/egreso/17040074.pdf";
                   can_move := false |} /\
  fs_now (reached v p 1) = fs_now (reached v p 0) /\
  moved (reached v p 1) = moved (reached v p 0) /\
  skipped (reached v p 1) = S (skipped (reached v p 0)).
Proof.
  intros v p.
  assert (Hk : p !! 0 = Some {| item_rownum := 2;
                                src := "/data/2017/04/egreso/20170421.pdf";
                                dst := "/data/2017/04/egreso/17040074.pdf";
                                can_move := false |})
    by (vm_compute; reflexivity).
  split; [exact Hk|].
  destruct (conflict_never_renamed v "/data" Scenario.conflict_rows 0 _ Hk)
    as (Hfs & Hm & Hs & _).
  - left. split; vm_compute; reflexivity.
  - auto.
Defined.

(** C10. An entry marked movable whose source and destination resolve to
    the same file when the loop reaches it changes neither the moved nor
    the skipped count, and at the end of the run the two counts together
    are below the number of entries of the plan. *)
Theorem already_ok_not_counted {FS : Type} `{FileSystem FS}
    (fs : FS) (p : list item) (k : nat) (it : item) :
  let st := reached fs p k in
  let st' := reached fs p (S k) in
  let final := execute fs p in
  p !! k = Some it ->
  can_move it = true ->
  same_file (fs_now st) (src it) (dst it) = true ->
  moved st' = moved st /\ skipped st' = skipped st /\
  fs_now st' = fs_now st /\ log st' = log st ++ [EvAlreadyOk (src it)] /\
  moved final + skipped final < length p.
Proof.
  intros st st' final Hk Hc Hs.
  assert (Hst' : st' = {| fs_now := fs_now st; moved := moved st;
                          skipped := skipped st;
                          log := log st ++ [EvAlreadyOk (src it)] |}).
  { unfold st'. rewrite (reached_S _ _ _ _ Hk). now apply exec_step_same. }
  rewrite Hst'. simpl. repeat split.
  unfold final. rewrite (reached_rest fs p (S k)). fold st'.
  pose proof (execute_from_counts (drop (S k) p) st') as Hrest.
  rewrite Hst' in Hrest at 3 4. simpl in Hrest.
  pose proof (reached_counts fs p k) as Hpre. fold st in Hpre.
  apply lookup_lt_Some in Hk. rewrite length_drop in Hrest. lia.
Qed.

(** An instance: a rename that only changes the case of the name. *)
Lemma already_ok_not_counted_witness :
  let v := Scenario.case_vol in
  let p := plan (make_plan v "/data" Scenario.case_rows) in
  p !! 0 = Some {| item_rownum := 2; src := "/data/f/a.pdf";
                   dst := "/data/f/A.pdf"; can_move := true |} /\
  moved (execute v p) + skipped (execute v p) < length p.
Proof.
  intros v p.
  assert (Hk : p !! 0 = Some {| item_rownum := 2; src := "/data/f/a.pdf";
                                dst := "/data/f/A.pdf"; can_move := true |})
    by (vm_compute; reflexivity).
  split; [exact Hk|].
  apply (already_ok_not_counted v p 0 _ Hk); vm_compute; reflexivity.
Defined.

(** ** Two runs in a row *)

(** C3 (as stated) fails.  On a volume holding [a.pdf], with the records
    "a to b" and "b to c", the first run renames [a.pdf] to [b.pdf] and
    omits the second record, whose source is missing when the plan is made.
    The second run renames [b.pdf] to [c.pdf]: one more move, not zero.
    The entry moved by the first run is planned as source-missing and
    printed as omitted on the second run, not as already correct. *)
Lemma second_run_moves_again :
  let first := cycle Scenario.chain_vol "/data" Scenario.chain_rows in
  let plan2 := second_plan Scenario.chain_vol "/data" Scenario.chain_rows in
  let second := second_cycle Scenario.chain_vol "/data" Scenario.chain_rows in
  log first = [EvRenamed "/data/f/a.pdf" "/data/f/b.pdf";
               EvOmitted "/data/f/b.pdf" "/data/f/c.pdf"] /\
  moved first = 1 /\
  preview plan2 = [EvPreview 2 "/data/f/a.pdf" "/data/f/b.pdf" [SourceMissing];
                   EvPreview 3 "/data/f/b.pdf" "/data/f/c.pdf" [SourceFound]] /\
  log second = [EvOmitted "/data/f/a.pdf" "/data/f/b.pdf";
                EvRenamed "/data/f/b.pdf" "/data/f/c.pdf"] /\
  moved second = 1 /\
  log second !! 0 <> Some (EvAlreadyOk "/data/f/a.pdf").
Proof. vm_compute. repeat split; discriminate. Qed.

Section TraceFacts.

Context {FS : Type} `{FileSystem FS}.

Lemma exec_step_log (st : exec_state) it :
  log (exec_step st it) = log st ++ [step_event (fs_now st) it].
Proof.
  unfold exec_step, step_event.
  destruct (negb (can_move it)); [reflexivity|].
  destruct (same_file _ _ _); [reflexivity|].
  destruct (fs_exists _ _); [reflexivity|].
  destruct (fs_rename _ _ _); reflexivity.
Qed.

Lemma execute_from_log p : forall st : exec_state,
  log (execute_from st p) = log st ++ trace st p.
Proof.
  unfold execute_from.
  induction p as [|it p IH]; intros st; simpl.
  - now rewrite app_nil_r.
  - rewrite IH, exec_step_log, <- app_assoc. reflexivity.
Qed.

Lemma execute_log (fs : FS) p : log (execute fs p) = trace (exec_init fs) p.
Proof. unfold execute. now rewrite execute_from_log. Qed.

Lemma trace_cannot_move p : forall (st : exec_state) k it,
  p !! k = Some it -> can_move it = false ->
  trace st p !! k = Some (EvOmitted (src it) (dst it)).
Proof.
  induction p as [|x p IH]; intros st k it Hk Hc; [discriminate|].
  destruct k as [|k]; simpl in *.
  - injection Hk as ->. unfold step_event. now rewrite Hc.
  - now apply IH.
Qed.

End TraceFacts.

Section Idempotence.

Context {FS : Type} `{FileSystem FS} {laws : FileSystemLaws FS}.

Variable fs0 : FS.

Lemma stable_same_file fs a b :
  stable fs0 fs -> same_file fs a b = same_file fs0 a b.
Proof. intros Hst. unfold same_file. now rewrite !Hst. Qed.

Lemma same_file_refl (fs : FS) a : same_file fs a a = true.
Proof. unfold same_file. apply String.eqb_refl. Qed.

Lemma same_file_exists (fs : FS) a b :
  same_file fs a b = true -> fs_exists fs a = fs_exists fs b.
Proof. unfold same_file. rewrite String.eqb_eq. apply exists_resolve. Qed.

(** One iteration keeps resolution, keeps what is gone gone, and a source
    it renames is gone afterwards. *)
Lemma exec_step_inv (st : exec_state) it :
  stable fs0 (fs_now st) -> planned fs0 it ->
  stable fs0 (fs_now (exec_step st it)) /\
  (forall q, gone fs0 (fs_now st) q -> gone fs0 (fs_now (exec_step st it)) q) /\
  (forall s d, step_event (fs_now st) it = EvRenamed s d ->
     s = src it /\ d = dst it /\ gone fs0 (fs_now (exec_step st it)) s).
Proof.
  intros Hst Hpl. unfold exec_step, step_event.
  destruct (can_move it) eqn:Hc; simpl;
    [|split; [exact Hst | split; [auto | discriminate]]].
  destruct (same_file (fs_now st) (src it) (dst it)) eqn:Hsame;
    [split; [exact Hst | split; [auto | discriminate]]|].
  destruct (fs_exists (fs_now st) (dst it)) eqn:Hdst;
    [split; [exact Hst | split; [auto | discriminate]]|].
  destruct (fs_rename (fs_now st) (src it) (dst it)) as [e|fs'] eqn:Hren;
    [split; [exact Hst | split; [auto | discriminate]]|].
  simpl.
  unfold planned in Hpl. rewrite Hc in Hpl. symmetry in Hpl.
  unfold can_move_of in Hpl. apply andb_true_iff in Hpl.
  destruct Hpl as [Hsrc0 Hdst0].
  rewrite (stable_same_file _ _ _ Hst) in Hsame.
  rewrite Hsame, orb_false_r, negb_true_iff in Hdst0.
  assert (Hgone : forall q, fs_exists fs0 q = true ->
            (same_file (fs_now st) q (src it) = true \/
             fs_exists (fs_now st) q = false) ->
            fs_exists fs' q = false).
  { intros q Hq0 Hq.
    rewrite (rename_exists _ _ _ _ q Hren)
      by now rewrite (stable_same_file _ _ _ Hst).
    destruct (same_file (fs_now st) q (src it)) eqn:Hqs; [reflexivity|].
    destruct (same_file (fs_now st) q (dst it)) eqn:Hqd.
    - rewrite (stable_same_file _ _ _ Hst) in Hqd.
      apply same_file_exists in Hqd. congruence.
    - destruct Hq; congruence. }
  split; [|split].
  - intros q. rewrite (rename_resolve _ _ _ _ q Hren). apply Hst.
  - intros q [Hq0 Hq]. split; [exact Hq0|]. apply Hgone; auto.
  - intros s d [= <- <-]. split; [reflexivity|]. split; [reflexivity|].
    split; [exact Hsrc0|]. apply Hgone; [exact Hsrc0|].
    left. apply same_file_refl.
Qed.

Lemma execute_from_inv p : forall st : exec_state,
  stable fs0 (fs_now st) -> Forall (planned fs0) p ->
  stable fs0 (fs_now (execute_from st p)) /\
  (forall q, gone fs0 (fs_now st) q -> gone fs0 (fs_now (execute_from st p)) q).
Proof.
  unfold execute_from.
  induction p as [|it p IH]; intros st Hst Hpl; simpl; [auto|].
  inversion Hpl as [|? ? Hit Hrest]; subst.
  destruct (exec_step_inv st it Hst Hit) as (Hst' & Hg & _).
  destruct (IH _ Hst' Hrest) as (Hst'' & Hg').
  split; [exact Hst''|]. intros q Hq. auto.
Qed.

(** The source of an entry the run renames is gone when the run ends. *)
Lemma trace_renamed p : forall (st : exec_state) k s d,
  stable fs0 (fs_now st) -> Forall (planned fs0) p ->
  trace st p !! k = Some (EvRenamed s d) ->
  (exists it, p !! k = Some it /\ src it = s /\ dst it = d) /\
  gone fs0 (fs_now (execute_from st p)) s.
Proof.
  induction p as [|it p IH]; intros st k s d Hst Hpl Hk; [discriminate|].
  inversion Hpl as [|? ? Hit Hrest]; subst.
  destruct (exec_step_inv st it Hst Hit) as (Hst' & Hg & Hev).
  destruct k as [|k]; simpl in Hk.
  - injection Hk as Hk. destruct (Hev _ _ Hk) as (-> & -> & Hgone).
    split; [exists it; auto|].
    change (execute_from st (it :: p)) with (execute_from (exec_step st it) p).
    now apply execute_from_inv.
  - exact (IH _ _ _ _ Hst' Hrest Hk).
Qed.

Lemma planned_entries base_dir rows :
  Forall (planned fs0) (plan (make_plan fs0 base_dir rows)).
Proof.
  rewrite make_plan_eq. cbn [plan]. apply List.Forall_forall.
  intros it Hin. apply in_map_iff in Hin. destruct Hin as (r & <- & _).
  reflexivity.
Qed.

Lemma stable_paths_of fs base_dir r :
  stable fs0 fs -> paths_of fs base_dir r = paths_of fs0 base_dir r.
Proof. intros Hst. unfold paths_of. now rewrite Hst. Qed.

End Idempotence.

(** C3 (as amended). On a volume without links, an entry that the first
    run renames has no source left when the first run ends.  The second
    run on the same rows plans it with the same paths, shows it as
    source-missing, marks it not movable and prints it as omitted: it is
    not moved again, and it is counted as skipped, not reported as
    already correct. *)
Theorem renamed_then_missing {FS : Type} `{FileSystem FS}
    {laws : FileSystemLaws FS}
    (fs0 : FS) (base_dir : path) (rows : list row) (k : nat) (s d : path) :
  let first := cycle fs0 base_dir rows in
  let plan2 := second_plan fs0 base_dir rows in
  let second := second_cycle fs0 base_dir rows in
  log first !! k = Some (EvRenamed s d) ->
  fs_exists (fs_now first) s = false /\
  (exists n,
     plan plan2 !! k =
       Some {| item_rownum := n; src := s; dst := d; can_move := false |} /\
     preview plan2 !! k = Some (EvPreview n s d [SourceMissing])) /\
  log second !! k = Some (EvOmitted s d).
Proof.
  intros first plan2 second Hk.
  unfold first, cycle in Hk. rewrite execute_log in Hk.
  assert (Hst0 : stable fs0 (fs_now (exec_init fs0))) by (intros q; reflexivity).
  pose proof (planned_entries fs0 base_dir rows) as Hpl.
  destruct (trace_renamed fs0 _ _ _ _ _ Hst0 Hpl Hk) as ((it & Hit & Hs & Hd) & Hgone).
  destruct (execute_from_inv fs0 _ _ Hst0 Hpl) as (Hst1 & _).
  fold (execute fs0 (plan (make_plan fs0 base_dir rows))) in Hgone, Hst1.
  fold (cycle fs0 base_dir rows) in Hgone, Hst1. fold first in Hgone, Hst1.
  destruct Hgone as [_ Hmissing].
  rewrite make_plan_eq in Hit. cbn [plan] in Hit.
  rewrite list_lookup_fmap in Hit.
  destruct (rows !! k) as [r|] eqn:Hr; [|discriminate].
  injection Hit as <-. unfold entry_of in Hs, Hd. cbn [src dst] in Hs, Hd.
  assert (Hentry : entry_of (fs_now first) base_dir r =
                   {| item_rownum := rownum r; src := s; dst := d;
                      can_move := false |}).
  { unfold entry_of. rewrite (stable_paths_of fs0 _ _ _ Hst1), Hs, Hd.
    unfold can_move_of. now rewrite Hmissing. }
  assert (Hplan2 : plan plan2 !! k =
                   Some {| item_rownum := rownum r; src := s; dst := d;
                           can_move := false |}).
  { unfold plan2, second_plan. fold first. rewrite make_plan_eq. cbn [plan].
    rewrite list_lookup_fmap, Hr. simpl. now rewrite Hentry. }
  split; [exact Hmissing|]. split.
  - exists (rownum r). split; [exact Hplan2|].
    unfold plan2, second_plan. fold first. rewrite make_plan_eq. cbn [preview].
    rewrite list_lookup_fmap, Hr. simpl. unfold preview_of.
    rewrite (stable_paths_of fs0 _ _ _ Hst1), Hs, Hd.
    unfold status_of. now rewrite Hmissing.
  - unfold second, second_cycle, cycle. fold first.
    fold (second_plan fs0 base_dir rows). fold plan2.
    rewrite execute_log.
    exact (trace_cannot_move _ _ _ _ Hplan2 eq_refl).
Qed.

(** The concrete volume is one without links. *)
Lemma flat_fs_laws : FileSystemLaws (gmap string string).
Proof.
  split.
  - intros fs p q Hpq. simpl in *. unfold FlatFS.present. now rewrite Hpq.
  - intros fs fs' s d p _. reflexivity.
  - intros fs fs' s d p. unfold same_file. simpl. unfold FlatFS.rename, FlatFS.present.
    destruct (fs !! FlatFS.canon s) as [content|] eqn:Hs; [|discriminate].
    destruct (String.eqb_spec (FlatFS.canon s) (FlatFS.canon d)) as [Heq|Hne];
      [intros _; discriminate|].
    destruct (fs !! FlatFS.canon d) as [other|] eqn:Hd; [discriminate|].
    intros [= <-] _.
    destruct (String.eqb_spec (FlatFS.canon p) (FlatFS.canon s)) as [->|Hps].
    + rewrite lookup_insert_ne by congruence. rewrite lookup_delete_eq.
      apply bool_decide_eq_false. intros [x Hx]; discriminate.
    + destruct (String.eqb_spec (FlatFS.canon p) (FlatFS.canon d)) as [->|Hpd].
      * rewrite lookup_insert_eq. apply bool_decide_eq_true. eauto.
      * rewrite lookup_insert_ne by congruence.
        rewrite lookup_delete_ne by congruence. reflexivity.
Qed.

(** An instance: the first record of the chain. *)
Lemma renamed_then_missing_witness :
  let first := cycle Scenario.chain_vol "/data" Scenario.chain_rows in
  let second := second_cycle Scenario.chain_vol "/data" Scenario.chain_rows in
  log first !! 0 = Some (EvRenamed "/data/f/a.pdf" "/data/f/b.pdf") /\
  fs_exists (fs_now first) "/data/f/a.pdf" = false /\
  log second !! 0 = Some (EvOmitted "/data/f/a.pdf" "/data/f/b.pdf").
Proof.
  intros first second.
  assert (Hk : log first !! 0 = Some (EvRenamed "/data/f/a.pdf" "/data/f/b.pdf"))
    by (vm_compute; reflexivity).
  split; [exact Hk|].
  destruct (@renamed_then_missing _ _ flat_fs_laws Scenario.chain_vol "/data"
              Scenario.chain_rows 0 _ _ Hk) as (Hgone & _ & Hlog).
  split; [exact Hgone | exact Hlog].
Defined.

(** * Further properties of the script *)

(** ** [ensure_pdf] again *)

Module TrimFacts.
Import PyStr.

#[local] Arguments String.append !_ _ / : simpl nomatch.

Lemma app_inj_last (a b : string) x y :
  a +:+ String x "" = b +:+ String y "" -> a = b /\ x = y.
Proof.
  revert b; induction a as [|c a IH]; intros [|e b]; simpl.
  - intros [= ->]. auto.
  - intros [= -> Hb]. destruct b; discriminate.
  - intros [= -> Ha]. destruct a; discriminate.
  - intros [= -> Hab]. destruct (IH _ Hab) as [-> ->]. auto.
Qed.

Lemma lstrip_fixed (s : string) :
  (forall c s', s = String c s' -> is_space c = false) -> lstrip s = s.
Proof.
  destruct s as [|c s]; simpl; [reflexivity|].
  intros Hh. now rewrite (Hh c s eq_refl).
Qed.

Lemma rstrip_fixed (s : string) :
  (forall c s', s = s' +:+ String c "" -> is_space c = false) -> rstrip s = s.
Proof.
  induction s as [|c s IH]; simpl; [reflexivity|].
  intros Hl. rewrite IH.
  - destruct s as [|e s]; [|reflexivity].
    now rewrite (Hl c "" eq_refl).
  - intros e s' ->. apply (Hl e (String c s')). reflexivity.
Qed.

Lemma strip_fixed (s : string) : trimmed s -> strip s = s.
Proof.
  intros [Hh Hl]. unfold strip. rewrite (lstrip_fixed _ Hh). now apply rstrip_fixed.
Qed.

Lemma trimmed_app_pdf (t : string) : trimmed t -> trimmed (t +:+ ".pdf").
Proof.
  intros [Hh Hl]. split.
  - intros c s'. destruct t as [|e t]; simpl.
    + intros [= <- _]. reflexivity.
    + intros [= <- _]. exact (Hh e t eq_refl).
  - intros c s' Heq.
    change ".pdf" with (".pd" +:+ String "f" "") in Heq.
    rewrite <- PyStrFacts.app_assoc in Heq.
    apply app_inj_last in Heq. destruct Heq as [_ <-]. reflexivity.
Qed.

End TrimFacts.

(** X1. The file name [ensure_pdf] returns always ends in ".pdf" up to
    case and carries no surrounding white space, and applying [ensure_pdf]
    to it gives it back: a suffix is never added twice. *)
Theorem ensure_pdf_idempotent (name : string) :
  PyStr.endswith (PyStr.lower (ensure_pdf name)) ".pdf" = true /\
  PyStr.trimmed (ensure_pdf name) /\
  ensure_pdf (ensure_pdf name) = ensure_pdf name.
Proof.
  assert (Hends : PyStr.endswith (PyStr.lower (ensure_pdf name)) ".pdf" = true).
  { unfold ensure_pdf.
    destruct (PyStr.endswith (PyStr.lower (PyStr.strip name)) ".pdf") eqn:He;
      simpl; [exact He|].
    apply PyStrFacts.endswith_iff. rewrite PyStrFacts.lower_app.
    exists (PyStr.lower (PyStr.strip name)). reflexivity. }
  assert (Htrim : PyStr.trimmed (ensure_pdf name)).
  { unfold ensure_pdf.
    destruct (PyStr.endswith (PyStr.lower (PyStr.strip name)) ".pdf"); simpl.
    - apply PyStrFacts.strip_trimmed.
    - apply TrimFacts.trimmed_app_pdf, PyStrFacts.strip_trimmed. }
  split; [exact Hends|]. split; [exact Htrim|].
  unfold ensure_pdf at 1. rewrite (TrimFacts.strip_fixed _ Htrim), Hends.
  reflexivity.
Qed.

(** ** Headers again *)

Lemma build_field_map_snoc names x :
  build_field_map (names ++ [x]) = dict_set (build_field_map names) (header_key x) x.
Proof. unfold build_field_map. rewrite fold_left_app. reflexivity. Qed.

Lemma field_map_last names k :
  match dict_get (build_field_map names) k with
  | Some h =>
      exists a b, names = a ++ h :: b /\ header_key h = k /\
        Forall (fun h' => header_key h' <> k) b
  | None => Forall (fun h' => header_key h' <> k) names
  end.
Proof.
  induction names as [|x names IH] using rev_ind.
  - simpl. constructor.
  - rewrite build_field_map_snoc, dict_get_set.
    destruct (String.eqb_spec (header_key x) k) as [Hk|Hk].
    + exists names, []. auto.
    + destruct (dict_get (build_field_map names) k) as [h|].
      * destruct IH as (a & b & -> & Hh & Hb).
        exists a, (b ++ [x]). rewrite <- app_assoc. split; [reflexivity|].
        split; [exact Hh|]. apply Forall_app. split; [exact Hb|].
        constructor; [exact Hk | constructor].
      * apply Forall_app. split; [exact IH|]. constructor; [exact Hk | constructor].
Qed.

(** What the map returned holds for a name found directly. *)
Lemma resolve_columns_direct names out fm r :
  resolve_columns (Some names) = (out, Return fm) ->
  In r required -> is_Some (dict_get (build_field_map names) r) ->
  dict_get fm r = dict_get (build_field_map names) r.
Proof.
  unfold resolve_columns. change (default [] (Some names)) with names. cbv zeta.
  destruct (not_in (build_field_map names) required); [now intros [= _ <-]|].
  destruct (not_in _ required); [|discriminate].
  intros [= _ <-] Hr [h Hh].
  destruct Hr as [<-|[<-|[<-|[]]]].
  - apply remapped_path.
  - apply remapped_folio.
  - rewrite remapped_folio_correcto, Hh. reflexivity.
Qed.

(** X2. When several headers have the same lower-cased, trimmed text, the
    column used for a required name found directly is the last of them in
    the header row. *)
Theorem last_header_wins (names : list string) (out : list event)
    (fm : dict string) (r : string) :
  resolve_columns (Some names) = (out, Return fm) ->
  In r required ->
  direct names r ->
  exists a h b,
    dict_get fm r = Some h /\ names = a ++ h :: b /\ header_key h = r /\
    Forall (fun h' => header_key h' <> r) b.
Proof.
  intros Hres Hr Hd. apply field_map_direct, dict_mem_true in Hd.
  rewrite (resolve_columns_direct _ _ _ _ Hres Hr Hd).
  pose proof (field_map_last names r) as Hlast.
  destruct Hd as [h Hh]. rewrite Hh in Hlast |- *.
  destruct Hlast as (a & b & Hn & Hk & Hb). exists a, h, b. auto.
Qed.

(** An instance: of "Folio" and "FOLIO " the second is used. *)
Lemma last_header_wins_witness :
  exists a h b,
    dict_get [("path", "path"); ("folio", "FOLIO "); ("folio_correcto", "folio_correcto")]
      "folio" = Some h /\
    ["path"; "Folio"; "FOLIO "; "folio_correcto"] = a ++ h :: b /\
    header_key h = "folio" /\
    Forall (fun h' => header_key h' <> "folio") b.
Proof.
  refine (last_header_wins ["path"; "Folio"; "FOLIO "; "folio_correcto"] []
            _ "folio" eq_refl _ _).
  - simpl; auto.
  - exists "Folio". split; [simpl; auto | reflexivity].
Defined.

(** X3. When [folio_correcto] is not found directly and some header,
    squashed, is "folio_correcto" (an underscore or hyphen between the two
    words), the column used is such a header, whatever headers squash to
    "foliocorrecto" and wherever they stand in the header row. *)
Theorem separator_form_preferred (names : list string) (out : list event)
    (fm : dict string) :
  resolve_columns (Some names) = (out, Return fm) ->
  ~ direct names "folio_correcto" ->
  (exists h', In h' names /\ squash (header_key h') = "folio_correcto") ->
  exists h, dict_get fm "folio_correcto" = Some h /\ In h names /\
    squash (header_key h) = "folio_correcto".
Proof.
  intros Hres Hnd (h' & Hin & Hsq).
  assert (Hnone : dict_get (build_field_map names) "folio_correcto" = None).
  { destruct (dict_get (build_field_map names) "folio_correcto") eqn:Hg;
      [|reflexivity].
    exfalso. apply Hnd. exact (get_direct _ _ _ Hg). }
  revert Hres.
  unfold resolve_columns. change (default [] (Some names)) with names. cbv zeta.
  destruct (not_in (build_field_map names) required) eqn:Hmiss.
  { apply not_in_nil in Hmiss. destruct Hmiss as (_ & _ & [x Hx]). congruence. }
  clear Hmiss. destruct (not_in (build_remapped _ _) required); [|discriminate].
  intros [= _ <-]. rewrite remapped_folio_correcto, Hnone.
  pose proof (alt_map_has names h' Hin) as [x Hx]. rewrite Hsq in Hx.
  unfold candidates. cbn [first_candidate].
  change (squash "folio_correcto") with "folio_correcto". rewrite Hx.
  exists x. split; [reflexivity|]. exact (alt_map_get _ _ _ Hx).
Qed.

(** An instance: "folio correcto" comes first, "Folio-Correcto" is used. *)
Lemma separator_form_preferred_witness :
  exists h,
    dict_get [("path", "path"); ("folio", "folio"); ("folio_correcto", "Folio-Correcto")]
      "folio_correcto" = Some h /\
    In h ["path"; "folio"; "folio correcto"; "Folio-Correcto"] /\
    squash (header_key h) = "folio_correcto".
Proof.
  refine (separator_form_preferred
            ["path"; "folio"; "folio correcto"; "Folio-Correcto"] [] _ eq_refl _ _).
  - intros (h & Hin & Hk).
    destruct Hin as [<-|[<-|[<-|[<-|[]]]]]; discriminate Hk.
  - exists "Folio-Correcto". split; [simpl; auto | reflexivity].
Defined.

(** ** Rows again *)

Lemma kept_or_reported fm ir :
  (is_Some (kept fm ir) /\ reported fm ir = None) \/
  (kept fm ir = None /\ is_Some (reported fm ir)).
Proof.
  unfold kept, reported.
  destruct (extract fm ir.2) as [e|[[p f] c]]; [right; eauto|].
  destruct (truthy p && truthy f && truthy c); [left | right]; eauto.
Qed.

Lemma omap_cons {A B} (f : A -> option B) x l :
  omap f (x :: l) =
  match f x with Some y => y :: omap f l | None => omap f l end.
Proof. reflexivity. Qed.

Lemma omap_partition_length fm (l : list (nat * raw_row)) :
  length (omap (kept fm) l) + length (omap (reported fm) l) = length l.
Proof.
  induction l as [|ir l IH]; [reflexivity|]. rewrite !omap_cons.
  destruct (kept_or_reported fm ir) as [[[r Hr] Hn]|[Hn [e He]]];
    rewrite ?Hr, ?Hn, ?He; simpl; lia.
Qed.

Lemma length_enumerate_from {A} (l : list A) i : length (enumerate_from i l) = length l.
Proof. revert i; induction l; intros i; simpl; auto. Qed.

Lemma kept_rownum fm i raw r : kept fm (i, raw) = Some r -> rownum r = i.
Proof.
  unfold kept; simpl. destruct (extract fm raw) as [e|[[p f] c]]; [discriminate|].
  destruct (_ && _); [|discriminate]. now intros [= <-].
Qed.

Lemma kept_numbers fm raws : forall i,
  Forall (fun r => i <= rownum r < i + length raws)
    (omap (kept fm) (enumerate_from i raws)) /\
  StronglySorted lt (map rownum (omap (kept fm) (enumerate_from i raws))).
Proof.
  induction raws as [|raw raws IH]; intros i; cbn [enumerate_from].
  - split; constructor.
  - rewrite omap_cons. cbn [length].
    destruct (IH (S i)) as [Hrange Hsorted].
    assert (Hrange' : Forall (fun r => i <= rownum r < i + S (length raws))
                        (omap (kept fm) (enumerate_from (S i) raws))).
    { eapply List.Forall_impl; [|exact Hrange]. simpl. intros r Hr. lia. }
    destruct (kept fm (i, raw)) as [r|] eqn:Hk; [|auto].
    apply kept_rownum in Hk. split.
    + constructor; [lia | exact Hrange'].
    + simpl. constructor; [exact Hsorted|].
      rewrite Hk. apply Forall_fmap.
      eapply List.Forall_impl; [|exact Hrange]. simpl. intros r' Hr'. lia.
Qed.

Lemma kept_fields fm ir r :
  kept fm ir = Some r ->
  PyStr.trimmed (rel_path r) /\ PyStr.trimmed (folio r) /\ PyStr.trimmed (folio_ok r) /\
  rel_path r <> "" /\ folio r <> "" /\ folio_ok r <> "".
Proof.
  unfold kept. rewrite extract_cells. unfold bind.
  destruct (cell fm ir.2 "path"); [discriminate|].
  destruct (cell fm ir.2 "folio"); [discriminate|].
  destruct (cell fm ir.2 "folio_correcto"); [discriminate|].
  destruct (_ && _) eqn:Ht; [|discriminate].
  intros [= <-]. simpl. apply truthy_all in Ht.
  repeat split; try apply PyStrFacts.strip_trimmed; tauto.
Qed.

Lemma reported_numbers fm raws : forall i,
  Forall (fun ev => exists n, i <= n < i + length raws /\
            (ev = EvRowIncomplete n \/ exists e, ev = EvRowKeyError n e))
    (omap (reported fm) (enumerate_from i raws)).
Proof.
  induction raws as [|raw raws IH]; intros i; cbn [enumerate_from];
    [constructor|].
  rewrite omap_cons. cbn [length].
  assert (Hrest : Forall (fun ev => exists n, i <= n < i + S (length raws) /\
                    (ev = EvRowIncomplete n \/ exists e, ev = EvRowKeyError n e))
                    (omap (reported fm) (enumerate_from (S i) raws))).
  { eapply List.Forall_impl; [|exact (IH (S i))]. simpl.
    intros ev (n & Hn & Hev). exists n. split; [lia | exact Hev]. }
  unfold reported at 1; cbn [fst snd].
  destruct (extract fm raw) as [e|[[p f] c]].
  - constructor; [|exact Hrest]. exists i. split; [lia|]. right. eauto.
  - destruct (_ && _); [exact Hrest|].
    constructor; [|exact Hrest]. exists i. split; [lia|]. now left.
Qed.

Lemma load_rows_return csv_sniff csv_DictReader text msgs rows :
  load_rows csv_sniff csv_DictReader text = (msgs, Return rows) ->
  let reader := csv_DictReader text (sniff_csv_dialect csv_sniff text) in
  exists fm,
    resolve_columns (fieldnames reader) = ([], Return fm) /\
    rows = omap (kept fm) (enumerate_from 2 (data_rows reader)) /\
    msgs = omap (reported fm) (enumerate_from 2 (data_rows reader)).
Proof.
  intros Hload reader. unfold load_rows in Hload. fold reader in Hload.
  destruct (resolve_columns (fieldnames reader)) as [out [fm|n]] eqn:Hres;
    [|discriminate].
  rewrite rows_loop_spec in Hload. injection Hload as <- <-.
  rewrite resolve_columns_default in Hres.
  destruct (resolve_columns_return _ _ _ Hres) as [-> _].
  exists fm. auto.
Qed.

(** X4. When loading returns, every data row is accounted for once: the
    records and the messages together are as many as the data rows.  The
    records carry strictly increasing row numbers between 2 and the number
    of data rows plus one, and their three fields are non-empty and free
    of surrounding white space; every message is about a row number in
    that range. *)
Theorem load_rows_accounting (csv_sniff : string -> list ascii -> option Dialect)
    (csv_DictReader : string -> Dialect -> DictReader) (text : string)
    (msgs : list event) (rows : list row) :
  let n := length (data_rows (csv_DictReader text (sniff_csv_dialect csv_sniff text))) in
  load_rows csv_sniff csv_DictReader text = (msgs, Return rows) ->
  length rows + length msgs = n /\
  StronglySorted lt (map rownum rows) /\
  Forall (fun r =>
            2 <= rownum r <= S n /\
            PyStr.trimmed (rel_path r) /\ PyStr.trimmed (folio r) /\
            PyStr.trimmed (folio_ok r) /\
            rel_path r <> "" /\ folio r <> "" /\ folio_ok r <> "") rows /\
  Forall (fun ev => exists i, 2 <= i <= S n /\
            (ev = EvRowIncomplete i \/ exists e, ev = EvRowKeyError i e)) msgs.
Proof.
  intros n Hload. apply load_rows_return in Hload.
  destruct Hload as (fm & _ & -> & ->). fold n.
  split; [|split; [|split]].
  - rewrite omap_partition_length, length_enumerate_from. reflexivity.
  - apply kept_numbers.
  - apply List.Forall_forall. intros r Hin. split.
    + destruct (kept_numbers fm (data_rows (csv_DictReader text
                  (sniff_csv_dialect csv_sniff text))) 2) as [Hrange _].
      rewrite List.Forall_forall in Hrange. specialize (Hrange r Hin).
      fold n in Hrange. lia.
    + apply list_elem_of_In, list_elem_of_omap in Hin.
      destruct Hin as (ir & _ & Hk). exact (kept_fields _ _ _ Hk).
  - eapply List.Forall_impl; [|apply reported_numbers]. simpl.
    intros ev (i & Hi & Hev). exists i. fold n in Hi. split; [lia | exact Hev].
Qed.

(** An instance: three data rows, one record and two messages. *)
Lemma load_rows_accounting_witness :
  length [Scenario.mkrow "2017/04/egreso" "20170413" "17040075" 2]
  + length [EvRowIncomplete 3; EvRowIncomplete 4] = 3.
Proof.
  exact (proj1 (load_rows_accounting FlatFS.no_sniff
                  (FlatFS.fixed_reader Scenario.corrections) "" _ _ eq_refl)).
Defined.

Lemma extract_total fm names raw :
  (forall r, In r required -> exists h, dict_get fm r = Some h /\ In h names) ->
  (forall h, In h names -> is_Some (dict_get raw h)) ->
  exists pfc, extract fm raw = inr pfc.
Proof.
  intros Hfm Hraw.
  destruct (Hfm "path") as (hp & Hp & Hinp); [simpl; auto|].
  destruct (Hfm "folio") as (hf & Hf & Hinf); [simpl; auto|].
  destruct (Hfm "folio_correcto") as (hc & Hc & Hinc); [simpl; auto|].
  destruct (Hraw _ Hinp) as [vp Hvp].
  destruct (Hraw _ Hinf) as [vf Hvf].
  destruct (Hraw _ Hinc) as [vc Hvc].
  unfold extract, getitem, bind. rewrite Hp, Hvp, Hf, Hvf, Hc, Hvc. eauto.
Qed.

Lemma resolved_columns_in_header names out fm :
  resolve_columns (Some names) = (out, Return fm) ->
  forall r, In r required -> exists h, dict_get fm r = Some h /\ In h names.
Proof.
  intros Hres r Hr.
  destruct (resolve_columns_return _ _ _ Hres) as [-> Hall].
  destruct (resolve_columns_some _ Hall) as (fm' & Hres' & Hans).
  rewrite Hres in Hres'. injection Hres' as <-.
  destruct (Hans r Hr) as (h & Hh & Hin & _). eauto.
Qed.

(** X5. When every data row has a field (possibly [None]) under every
    header name, as the rows of [csv.DictReader] do, no lookup raises
    [KeyError]: every message of loading is about an incomplete row. *)
Theorem complete_rows_never_raise
    (csv_sniff : string -> list ascii -> option Dialect)
    (csv_DictReader : string -> Dialect -> DictReader) (text : string)
    (names : list string) (msgs : list event) (rows : list row) :
  let reader := csv_DictReader text (sniff_csv_dialect csv_sniff text) in
  fieldnames reader = Some names ->
  Forall (fun raw => forall h, In h names -> is_Some (dict_get raw h))
    (data_rows reader) ->
  load_rows csv_sniff csv_DictReader text = (msgs, Return rows) ->
  Forall (fun ev => exists i, ev = EvRowIncomplete i) msgs.
Proof.
  intros reader Hnames Hrows Hload. apply load_rows_return in Hload.
  fold reader in Hload. destruct Hload as (fm & Hres & _ & ->).
  rewrite Hnames in Hres.
  pose proof (resolved_columns_in_header _ _ _ Hres) as Hfm.
  generalize 2. induction Hrows as [|raw raws Hraw _ IH]; intros i;
    cbn [enumerate_from]; [constructor|].
  rewrite omap_cons. unfold reported at 1; cbn [fst snd].
  destruct (extract_total fm names raw Hfm Hraw) as ([[p f] c] & ->).
  destruct (_ && _); [apply IH|]. constructor; [eauto | apply IH].
Qed.

(** The rows built from a header have a field under every header name. *)
Lemma zip_row_keys names : forall fields d h,
  In h names \/ is_Some (dict_get d h) ->
  is_Some (dict_get (Scenario.zip_row names fields d) h).
Proof.
  induction names as [|n names IH]; intros fields d h Hh.
  - destruct Hh as [[]|Hd]. destruct fields; exact Hd.
  - destruct fields as [|f fields]; cbn [Scenario.zip_row]; apply IH;
      (destruct Hh as [[->|Hin]|Hd]; [right|left; exact Hin|right]);
      rewrite dict_get_set; try (rewrite String.eqb_refl; eauto);
      destruct (String.eqb n h); eauto.
Qed.

(** An instance: the table with a short row. *)
Lemma complete_rows_never_raise_witness :
  Forall (fun ev => exists i, ev = EvRowIncomplete i)
    [EvRowIncomplete 3; EvRowIncomplete 4].
Proof.
  refine (complete_rows_never_raise FlatFS.no_sniff
            (FlatFS.fixed_reader Scenario.corrections) ""
            ["Path"; "Folio"; "Folio Correcto"] _
            [Scenario.mkrow "2017/04/egreso" "20170413" "17040075" 2]
            eq_refl _ eq_refl).
  apply List.Forall_forall. intros raw Hin h Hh.
  apply in_map_iff in Hin. destruct Hin as (fields & <- & _).
  apply zip_row_keys. now left.
Defined.

(** ** The preview and the loop again *)

Section PreviewFacts.

Context {FS : Type} `{FileSystem FS}.

Lemma status_of_cases (fs : FS) s d :
  (status_of fs s d = [SourceMissing] \/ status_of fs s d = [SourceFound] \/
   status_of fs s d = [SourceFound; DestConflict]) /\
  (can_move_of fs s d = true <-> status_of fs s d = [SourceFound]) /\
  (status_of fs s d = [SourceMissing] <-> fs_exists fs s = false) /\
  (status_of fs s d = [SourceFound; DestConflict] <->
   fs_exists fs s = true /\ fs_exists fs d = true /\
   fs_resolve fs s <> fs_resolve fs d).
Proof.
  unfold status_of, can_move_of, same_file.
  destruct (fs_exists fs s), (fs_exists fs d),
    (String.eqb_spec (fs_resolve fs s) (fs_resolve fs d)); simpl;
    repeat split; auto; try discriminate; try tauto;
    try (intros (? & ? & ?); congruence).
Qed.

End PreviewFacts.

(** X6. The preview shows one block per plan entry, in order, with the
    row number and the two paths of the entry.  Its status lines are
    "source missing" alone, "source found" alone, or "source found" and
    "conflict"; they say "source found" alone exactly when the entry is
    marked movable, "source missing" exactly when the source does not
    exist, and "conflict" exactly when source and destination both exist
    and resolve differently. *)
Theorem preview_matches_plan {FS : Type} `{FileSystem FS}
    (fs : FS) (base_dir : path) (rows : list row) :
  let p := make_plan fs base_dir rows in
  Forall2
    (fun it ev =>
       exists st,
         ev = EvPreview (item_rownum it) (src it) (dst it) st /\
         (st = [SourceMissing] \/ st = [SourceFound] \/
          st = [SourceFound; DestConflict]) /\
         (can_move it = true <-> st = [SourceFound]) /\
         (st = [SourceMissing] <-> fs_exists fs (src it) = false) /\
         (st = [SourceFound; DestConflict] <->
          fs_exists fs (src it) = true /\ fs_exists fs (dst it) = true /\
          fs_resolve fs (src it) <> fs_resolve fs (dst it)))
    (plan p) (preview p).
Proof.
  intros p. unfold p. rewrite make_plan_eq. cbn [plan preview].
  induction rows as [|r rows IH]; simpl; constructor; [|exact IH].
  unfold entry_of, preview_of; cbn [item_rownum src dst can_move].
  eexists. split; [reflexivity|]. apply status_of_cases.
Qed.

Section TallyFacts.

Context {FS : Type} `{FileSystem FS}.

Lemma step_event_class (fs : FS) it :
  let ev := step_event fs it in
  (is_renamed ev = true /\ is_skipped ev = false /\ is_already_ok ev = false) \/
  (is_renamed ev = false /\ is_skipped ev = true /\ is_already_ok ev = false) \/
  (is_renamed ev = false /\ is_skipped ev = false /\ is_already_ok ev = true).
Proof.
  unfold step_event.
  destruct (negb (can_move it)); [auto|].
  destruct (same_file _ _ _); [auto|].
  destruct (fs_exists _ _); [auto|].
  destruct (fs_rename _ _ _); auto.
Qed.

Lemma exec_step_tally (st : exec_state) it :
  let ev := step_event (fs_now st) it in
  moved (exec_step st it) = moved st + (if is_renamed ev then 1 else 0) /\
  skipped (exec_step st it) = skipped st + (if is_skipped ev then 1 else 0).
Proof.
  unfold exec_step, step_event.
  destruct (negb (can_move it)); simpl; [lia|].
  destruct (same_file _ _ _); simpl; [lia|].
  destruct (fs_exists _ _); simpl; [lia|].
  destruct (fs_rename _ _ _); simpl; lia.
Qed.

Lemma trace_length p : forall st : exec_state, length (trace st p) = length p.
Proof. induction p as [|it p IH]; intros st; simpl; auto. Qed.

Lemma execute_from_tally p : forall st : exec_state,
  moved (execute_from st p) =
    moved st + length (List.filter is_renamed (trace st p)) /\
  skipped (execute_from st p) =
    skipped st + length (List.filter is_skipped (trace st p)) /\
  length (List.filter is_renamed (trace st p))
  + length (List.filter is_skipped (trace st p))
  + length (List.filter is_already_ok (trace st p)) = length p.
Proof.
  unfold execute_from.
  induction p as [|it p IH]; intros st; simpl; [lia|].
  destruct (IH (exec_step st it)) as (Hm & Hs & Hsum).
  destruct (exec_step_tally st it) as [Hm1 Hs1]. simpl in Hm1, Hs1.
  rewrite Hm, Hs, Hm1, Hs1.
  destruct (step_event_class (fs_now st) it)
    as [(-> & -> & ->)|[(-> & -> & ->)|(-> & -> & ->)]]; simpl; lia.
Qed.

(** One iteration changes the file system only through a rename. *)
Lemma exec_step_fs (st : exec_state) it :
  (fs_now (exec_step st it) = fs_now st /\ moved (exec_step st it) = moved st) \/
  (can_move it = true /\
   same_file (fs_now st) (src it) (dst it) = false /\
   fs_exists (fs_now st) (dst it) = false /\
   fs_rename (fs_now st) (src it) (dst it) = inr (fs_now (exec_step st it)) /\
   moved (exec_step st it) = S (moved st)).
Proof.
  unfold exec_step.
  destruct (can_move it); simpl; [|auto].
  destruct (same_file _ _ _); simpl; [auto|].
  destruct (fs_exists _ _); simpl; [auto|].
  destruct (fs_rename _ _ _); simpl; [auto|].
  right. auto.
Qed.

Lemma execute_from_moved p : forall st : exec_state,
  moved st <= moved (execute_from st p) /\
  (moved (execute_from st p) = moved st -> fs_now (execute_from st p) = fs_now st).
Proof.
  unfold execute_from.
  induction p as [|it p IH]; intros st; simpl; [auto|].
  destruct (IH (exec_step st it)) as [Hle Hsame].
  destruct (exec_step_fs st it) as [[Hfs Hm]|(_ & _ & _ & _ & Hm)].
  - rewrite Hm in *. split; [exact Hle|]. intros Heq. rewrite (Hsame Heq). exact Hfs.
  - split; lia.
Qed.

End TallyFacts.

(** X7. The loop prints one message per plan entry.  The moved count is
    the number of "renamed" messages, the skipped count the number of
    "omitted", "destination exists" and "error" messages, and these two
    counts plus the number of "already correct" messages are the number
    of plan entries. *)
Theorem execute_tally {FS : Type} `{FileSystem FS} (fs : FS) (p : list item) :
  let st := execute fs p in
  length (log st) = length p /\
  moved st = length (List.filter is_renamed (log st)) /\
  skipped st = length (List.filter is_skipped (log st)) /\
  moved st + skipped st + length (List.filter is_already_ok (log st)) = length p.
Proof.
  intros st. unfold st. rewrite execute_log.
  destruct (execute_from_tally p (exec_init fs)) as (Hm & Hs & Hsum).
  unfold execute. rewrite Hm, Hs. simpl.
  rewrite trace_length. repeat split; lia.
Qed.

(** X8. An iteration of the loop either leaves the file system as it is,
    or it is the rename of an entry marked movable whose destination,
    when the loop reaches it, does not exist and does not resolve to the
    source; the moved count then grows by one.  The loop performs no other
    change, so it never renames onto an existing path. *)
Theorem rename_only_onto_free_path {FS : Type} `{FileSystem FS}
    (fs : FS) (p : list item) (k : nat) (it : item) :
  let st := reached fs p k in
  let st' := reached fs p (S k) in
  p !! k = Some it ->
  (fs_now st' = fs_now st /\ moved st' = moved st) \/
  (can_move it = true /\
   same_file (fs_now st) (src it) (dst it) = false /\
   fs_exists (fs_now st) (dst it) = false /\
   fs_rename (fs_now st) (src it) (dst it) = inr (fs_now st') /\
   moved st' = S (moved st)).
Proof.
  intros st st' Hk. unfold st'. rewrite (reached_S _ _ _ _ Hk). fold st.
  apply exec_step_fs.
Qed.

(** An instance: the one entry of the conflict scenario changes nothing. *)
Lemma rename_only_onto_free_path_witness :
  let v := Scenario.conflict_vol in
  let p := plan (make_plan v "/data" Scenario.conflict_rows) in
  (fs_now (reached v p 1) = fs_now (reached v p 0) /\
   moved (reached v p 1) = moved (reached v p 0)) \/
  (false = true /\
   same_file (fs_now (reached v p 0)) "/data/2017/04/egreso/20170421.pdf"
     "/data/2017/04/egreso/17040074.pdf" = false /\
   fs_exists (fs_now (reached v p 0)) "/data/2017/04/egreso/17040074.pdf" = false /\
   fs_rename (fs_now (reached v p 0)) "/data/2017/04/egreso/20170421.pdf"
     "/data/2017/04/egreso/17040074.pdf" = inr (fs_now (reached v p 1)) /\
   moved (reached v p 1) = S (moved (reached v p 0))).
Proof.
  intros v p.
  refine (rename_only_onto_free_path v p 0
            {| item_rownum := 2;
               src := "/data/2017/04/egreso/20170421.pdf";
               dst := "/data/2017/04/egreso/17040074.pdf";
               can_move := false |} _).
  vm_compute. reflexivity.
Defined.

(** X9. A run that reports no move leaves the file system exactly as it
    found it. *)
Theorem no_move_no_change {FS : Type} `{FileSystem FS} (fs : FS) (p : list item) :
  moved (execute fs p) = 0 -> fs_now (execute fs p) = fs.
Proof.
  intros Hm. unfold execute in *.
  destruct (execute_from_moved p (exec_init fs)) as [_ Hsame].
  exact (Hsame Hm).
Qed.

(** An instance: the conflict scenario. *)
Lemma no_move_no_change_witness :
  fs_now (execute Scenario.conflict_vol
            (plan (make_plan Scenario.conflict_vol "/data" Scenario.conflict_rows)))
  = Scenario.conflict_vol.
Proof.
  apply (no_move_no_change Scenario.conflict_vol). vm_compute. reflexivity.
Defined.

(** ** One run on a volume without links *)

Section OneRun.

Context {FS : Type} `{FileSystem FS} {laws : FileSystemLaws FS}.

Variable fs0 : FS.

Lemma same_file_sym (fs : FS) a b : same_file fs a b = same_file fs b a.
Proof. unfold same_file. apply String.eqb_sym. Qed.

Lemma stable_exists_resolve fs a b :
  stable fs0 fs -> fs_resolve fs0 a = fs_resolve fs0 b ->
  fs_exists fs a = fs_exists fs b.
Proof. intros Hst Hab. apply exists_resolve. now rewrite !Hst. Qed.

(** One iteration keeps what was created, and a rename creates its
    destination, which was free, from a source that existed. *)
Lemma exec_step_created (st : exec_state) it :
  stable fs0 (fs_now st) -> planned fs0 it ->
  (forall q, created fs0 (fs_now st) q -> created fs0 (fs_now (exec_step st it)) q) /\
  (forall s d, step_event (fs_now st) it = EvRenamed s d ->
     fs_exists fs0 s = true /\ fs_exists fs0 d = false /\
     fs_exists (fs_now st) d = false /\
     created fs0 (fs_now (exec_step st it)) d).
Proof.
  intros Hst Hpl. unfold exec_step, step_event.
  destruct (can_move it) eqn:Hc; simpl; [|split; [auto | discriminate]].
  destruct (same_file (fs_now st) (src it) (dst it)) eqn:Hsame;
    [split; [auto | discriminate]|].
  destruct (fs_exists (fs_now st) (dst it)) eqn:Hdst;
    [split; [auto | discriminate]|].
  destruct (fs_rename (fs_now st) (src it) (dst it)) as [e|fs'] eqn:Hren;
    [split; [auto | discriminate]|].
  simpl.
  unfold planned in Hpl. rewrite Hc in Hpl. symmetry in Hpl.
  unfold can_move_of in Hpl. apply andb_true_iff in Hpl.
  destruct Hpl as [Hsrc0 Hdst0].
  pose proof Hsame as Hsame0. rewrite (stable_same_file _ _ _ _ Hst) in Hsame0.
  rewrite Hsame0, orb_false_r, negb_true_iff in Hdst0.
  split.
  - intros q [Hq0 Hq]. split; [exact Hq0|].
    rewrite (rename_exists _ _ _ _ q Hren Hsame).
    destruct (same_file (fs_now st) q (src it)) eqn:Hqs.
    + rewrite (stable_same_file _ _ _ _ Hst) in Hqs.
      apply same_file_exists in Hqs. congruence.
    + destruct (same_file (fs_now st) q (dst it)); [reflexivity | exact Hq].
  - intros s d [= <- <-]. repeat split; auto.
    rewrite (rename_exists _ _ _ _ (dst it) Hren Hsame).
    rewrite (same_file_sym _ (dst it) (src it)), Hsame, same_file_refl.
    reflexivity.
Qed.

Lemma execute_from_created p : forall st : exec_state,
  stable fs0 (fs_now st) -> Forall (planned fs0) p ->
  forall q, created fs0 (fs_now st) q -> created fs0 (fs_now (execute_from st p)) q.
Proof.
  unfold execute_from.
  induction p as [|it p IH]; intros st Hst Hpl q Hq; simpl; [exact Hq|].
  inversion Hpl as [|? ? Hit Hrest]; subst.
  destruct (exec_step_inv fs0 st it Hst Hit) as (Hst' & _ & _).
  destruct (exec_step_created st it Hst Hit) as [Hkeep _].
  apply IH; auto.
Qed.

(** What a "renamed" message of the run tells about the two paths. *)
Lemma trace_renamed_ends p : forall (st : exec_state) k s d,
  stable fs0 (fs_now st) -> Forall (planned fs0) p ->
  trace st p !! k = Some (EvRenamed s d) ->
  fs_exists fs0 s = true /\ fs_exists fs0 d = false /\
  created fs0 (fs_now (execute_from st p)) d.
Proof.
  induction p as [|it p IH]; intros st k s d Hst Hpl Hk; [discriminate|].
  inversion Hpl as [|? ? Hit Hrest]; subst.
  destruct (exec_step_inv fs0 st it Hst Hit) as (Hst' & _ & _).
  destruct (exec_step_created st it Hst Hit) as [_ Hev].
  destruct k as [|k]; simpl in Hk.
  - injection Hk as Hk. destruct (Hev _ _ Hk) as (Hs & Hd & _ & Hc).
    split; [exact Hs|]. split; [exact Hd|].
    change (execute_from st (it :: p)) with (execute_from (exec_step st it) p).
    now apply execute_from_created.
  - exact (IH _ _ _ _ Hst' Hrest Hk).
Qed.

(** Nothing is renamed onto a path that was created. *)
Lemma trace_created_blocks p : forall (st : exec_state) k s d q,
  stable fs0 (fs_now st) -> Forall (planned fs0) p ->
  created fs0 (fs_now st) q ->
  trace st p !! k = Some (EvRenamed s d) ->
  fs_resolve fs0 d <> fs_resolve fs0 q.
Proof.
  induction p as [|it p IH]; intros st k s d q Hst Hpl Hq Hk; [discriminate|].
  inversion Hpl as [|? ? Hit Hrest]; subst.
  destruct (exec_step_inv fs0 st it Hst Hit) as (Hst' & _ & _).
  destruct (exec_step_created st it Hst Hit) as [Hkeep Hev].
  destruct k as [|k]; simpl in Hk.
  - injection Hk as Hk. destruct (Hev _ _ Hk) as (_ & _ & Hfree & _).
    intros Heq. apply (stable_exists_resolve _ _ _ Hst) in Heq.
    destruct Hq as [_ Hq]. congruence.
  - exact (IH _ _ _ _ _ Hst' Hrest (Hkeep _ Hq) Hk).
Qed.

Lemma trace_two_renames p : forall (st : exec_state) i j s1 d1 s2 d2,
  stable fs0 (fs_now st) -> Forall (planned fs0) p ->
  i < j ->
  trace st p !! i = Some (EvRenamed s1 d1) ->
  trace st p !! j = Some (EvRenamed s2 d2) ->
  fs_resolve fs0 d2 <> fs_resolve fs0 d1.
Proof.
  induction p as [|it p IH]; intros st i j s1 d1 s2 d2 Hst Hpl Hij Hi Hj;
    [discriminate|].
  inversion Hpl as [|? ? Hit Hrest]; subst.
  destruct (exec_step_inv fs0 st it Hst Hit) as (Hst' & _ & _).
  destruct (exec_step_created st it Hst Hit) as [_ Hev].
  destruct j as [|j]; [lia|]. simpl in Hj.
  destruct i as [|i]; simpl in Hi.
  - injection Hi as Hi. destruct (Hev _ _ Hi) as (_ & _ & _ & Hc).
    exact (trace_created_blocks _ _ _ _ _ _ Hst' Hrest Hc Hj).
  - apply (IH _ i j s1 d1 s2 d2 Hst' Hrest); [lia | exact Hi | exact Hj].
Qed.

End OneRun.





(** ** [main] from the loaded file on *)


(** ** The choice of the CSV file *)

Section PickFacts.

Variable int_max_str_digits : nat.

Lemma int_of_digits_value s n :
  int_of_digits int_max_str_digits s = inr n ->
  n = decimal_value 0 s /\ all_chars is_decimal s = true.
Proof.
  unfold int_of_digits.
  destruct (all_chars is_decimal s); simpl; [|discriminate].
  destruct (_ && _); [discriminate|]. intros [= <-]. auto.
Qed.

Lemma pick_loop_picked csvs : forall inp out0 out csv rest,
  pick_loop int_max_str_digits csvs inp out0 = (out, inr (csv, rest)) ->
  exists bad line,
    inp = map Typed bad ++ Typed line :: rest /\
    Forall (rejected int_max_str_digits csvs) bad /\
    out = out0 ++ map rejection bad /\
    isdigit (PyStr.strip line) = true /\
    all_chars is_decimal (PyStr.strip line) = true /\
    1 <= decimal_value 0 (PyStr.strip line) <= length csvs /\
    csvs !! (decimal_value 0 (PyStr.strip line) - 1) = Some csv.
Proof.
  induction inp as [|[line|] inp IH]; intros out0 out csv rest;
    cbn [pick_loop]; try discriminate.
  destruct (isdigit (PyStr.strip line)) eqn:Hdig; cbn [negb].
  - destruct (int_of_digits int_max_str_digits (PyStr.strip line)) as [e|idx] eqn:Hint;
      [discriminate|].
    destruct (int_of_digits_value _ _ Hint) as [-> Hdec].
    destruct ((1 <=? _) && (_ <=? length csvs))%nat eqn:Hrange.
    + destruct (csvs !! _) as [c|] eqn:Hc; [|discriminate].
      intros [= <- <- <-]. exists [], line. simpl. rewrite app_nil_r.
      apply andb_true_iff in Hrange. destruct Hrange as [H1 H2].
      apply Nat.leb_le in H1, H2. repeat split; auto.
    + intros Hloop. destruct (IH _ _ _ _ Hloop) as (bad & l & -> & Hbad & -> & Hrest).
      exists (line :: bad), l. split; [reflexivity|]. split.
      * constructor; [|exact Hbad]. right. split; [exact Hint|].
        apply andb_false_iff in Hrange. destruct Hrange as [Hr|Hr].
        -- apply Nat.leb_gt in Hr. left. lia.
        -- apply Nat.leb_gt in Hr. right. lia.
      * split; [|exact Hrest]. rewrite <- app_assoc. simpl.
        unfold rejection at 2. now rewrite Hdig.
  - intros Hloop. destruct (IH _ _ _ _ Hloop) as (bad & l & -> & Hbad & -> & Hrest).
    exists (line :: bad), l. split; [reflexivity|]. split.
    + constructor; [now left | exact Hbad].
    + split; [|exact Hrest]. rewrite <- app_assoc. simpl.
      unfold rejection at 2. now rewrite Hdig.
Qed.

Lemma pick_loop_rejected csvs bad : forall inp out0,
  Forall (rejected int_max_str_digits csvs) bad ->
  pick_loop int_max_str_digits csvs (map Typed bad ++ inp) out0 =
  pick_loop int_max_str_digits csvs inp (out0 ++ map rejection bad).
Proof.
  induction bad as [|line bad IH]; intros inp out0 Hbad;
    cbn [map app pick_loop].
  - now rewrite app_nil_r.
  - inversion Hbad as [|? ? Hline Hrest]; subst.
    unfold rejection at 1.
    destruct Hline as [Hdig|[Hint Hout]].
    + rewrite Hdig. cbn [negb]. rewrite (IH _ _ Hrest), <- app_assoc. reflexivity.
    + destruct (isdigit (PyStr.strip line)); cbn [negb].
      * rewrite Hint.
        assert (Hr : ((1 <=? decimal_value 0 (PyStr.strip line))
                      && (decimal_value 0 (PyStr.strip line) <=? length csvs))%nat
                     = false).
        { apply andb_false_iff. destruct Hout as [Hz|Hbig].
          - left. apply Nat.leb_gt. lia.
          - right. apply Nat.leb_gt. lia. }
        rewrite Hr, (IH _ _ Hrest), <- app_assoc. reflexivity.
      * rewrite (IH _ _ Hrest), <- app_assoc. reflexivity.
Qed.

Lemma pick_loop_endings csvs : forall inp out0 out e,
  pick_loop int_max_str_digits csvs inp out0 = (out, inl e) ->
  e = Exit 1 \/ e = Traceback (Raised "EOFError") \/
  e = Traceback (Raised "ValueError").
Proof.
  induction inp as [|[line|] inp IH]; intros out0 out e; cbn [pick_loop].
  - intros [= _ <-]. auto.
  - destruct (isdigit (PyStr.strip line)); cbn [negb]; [|apply IH].
    unfold int_of_digits.
    destruct (all_chars is_decimal (PyStr.strip line)); cbn [negb];
      [|intros [= _ <-]; auto].
    destruct (_ && _)%nat; [intros [= _ <-]; auto|].
    destruct ((1 <=? _) && (_ <=? length csvs))%nat eqn:Hrange; [|apply IH].
    apply andb_true_iff in Hrange. destruct Hrange as [H1 H2].
    apply Nat.leb_le in H1, H2.
    destruct (lookup_lt_is_Some_2 csvs (decimal_value 0 (PyStr.strip line) - 1))
      as [c Hc]; [lia|].
    rewrite Hc. discriminate.
  - intros [= _ <-]. auto.
Qed.

End PickFacts.

(** X13. When [pick_csv] returns a file, the input it read is a run of
    answers that were asked again (each not made of digits, or a decimal
    number outside 1..n), followed by one answer that, trimmed, is the
    decimal number of the file returned in the sorted list (leading zeros
    allowed); the rest of the input is left unread.  It printed the menu
    and one message per answer asked again. *)
Theorem pick_csv_picked (int_max_str_digits : nat) (base_dir : path)
    (csvs : list path) (name : path -> string) (inp : stdin)
    (out : list prompt_event) (csv : path) (rest : stdin) :
  pick_csv int_max_str_digits base_dir csvs name inp = (out, inr (csv, rest)) ->
  exists bad line,
    inp = map Typed bad ++ Typed line :: rest /\
    Forall (rejected int_max_str_digits csvs) bad /\
    out = EvMenu (map name csvs) :: map rejection bad /\
    isdigit (PyStr.strip line) = true /\
    all_chars is_decimal (PyStr.strip line) = true /\
    1 <= decimal_value 0 (PyStr.strip line) <= length csvs /\
    csvs !! (decimal_value 0 (PyStr.strip line) - 1) = Some csv.
Proof.
  unfold pick_csv. destruct csvs as [|c csvs]; [discriminate|].
  intros Hloop. exact (pick_loop_picked _ _ _ _ _ _ _ Hloop).
Qed.

(** An instance: "x" and "7" are asked again, " 02 " picks the second. *)
Lemma pick_csv_picked_witness :
  exists bad line,
    [Typed "x"; Typed "7"; Typed " 02 "; Typed "1"]
      = map Typed bad ++ Typed line :: [Typed "1"] /\
    Forall (rejected 4300 ["/data/a.csv"; "/data/b.csv"]) bad /\
    [EvMenu ["a.csv"; "b.csv"]; EvInvalidNumber; EvOutOfRange]
      = EvMenu (map Desk.name_of ["/data/a.csv"; "/data/b.csv"]) :: map rejection bad /\
    isdigit (PyStr.strip line) = true /\
    all_chars is_decimal (PyStr.strip line) = true /\
    1 <= decimal_value 0 (PyStr.strip line) <= length ["/data/a.csv"; "/data/b.csv"] /\
    ["/data/a.csv"; "/data/b.csv"] !! (decimal_value 0 (PyStr.strip line) - 1)
      = Some "/data/b.csv".
Proof.
  exact (pick_csv_picked 4300 "/data" ["/data/a.csv"; "/data/b.csv"] Desk.name_of
           [Typed "x"; Typed "7"; Typed " 02 "; Typed "1"] _ _ _ eq_refl).
Defined.

(** X14. Answers that are asked again do not change the outcome: after
    any run of them, [pick_csv] goes on with the rest of the input as if it
    had started there, having printed one more message per answer. *)
Theorem pick_csv_asks_again (int_max_str_digits : nat) (base_dir : path)
    (csvs : list path) (name : path -> string) (bad : list string) (inp : stdin) :
  csvs <> [] ->
  Forall (rejected int_max_str_digits csvs) bad ->
  pick_csv int_max_str_digits base_dir csvs name (map Typed bad ++ inp) =
  pick_loop int_max_str_digits csvs inp
    (EvMenu (map name csvs) :: map rejection bad).
Proof.
  intros Hne Hbad. unfold pick_csv. destruct csvs as [|c csvs]; [contradiction|].
  now rewrite pick_loop_rejected.
Qed.

(** An instance: an empty answer and "0", then the operator interrupts. *)
Lemma pick_csv_asks_again_witness :
  pick_csv 4300 "/data" ["/data/a.csv"] Desk.name_of
    (map Typed [""; "0"] ++ [CtrlC]) =
  pick_loop 4300 ["/data/a.csv"] [CtrlC]
    (EvMenu (map Desk.name_of ["/data/a.csv"]) :: map rejection [""; "0"]).
Proof.
  apply pick_csv_asks_again; [discriminate|].
  constructor; [left; reflexivity|].
  constructor; [|constructor].
  right. split; [reflexivity | left; reflexivity].
Defined.

(** X15. An answer made of digit characters that [int] does not accept
    (a superscript digit among them, or more digits than the interpreter
    converts) ends [pick_csv] with an unhandled [ValueError], after the
    menu and nothing else. *)
Theorem pick_csv_value_error (int_max_str_digits : nat) (base_dir : path)
    (csvs : list path) (name : path -> string) (line : string) (rest : stdin) :
  csvs <> [] ->
  isdigit (PyStr.strip line) = true ->
  all_chars is_decimal (PyStr.strip line) = false \/
  (0 < int_max_str_digits /\ int_max_str_digits < String.length (PyStr.strip line)) ->
  pick_csv int_max_str_digits base_dir csvs name (Typed line :: rest) =
  ([EvMenu (map name csvs)], inl (Traceback (Raised "ValueError"))).
Proof.
  intros Hne Hdig Hbad. unfold pick_csv. destruct csvs as [|c csvs]; [contradiction|].
  cbn [pick_loop]. rewrite Hdig. cbn [negb]. unfold int_of_digits.
  destruct (all_chars is_decimal (PyStr.strip line)) eqn:Hdec; cbn [negb];
    [|reflexivity].
  destruct Hbad as [Hd|[Hpos Hlong]]; [discriminate|].
  apply Nat.ltb_lt in Hpos, Hlong. rewrite Hpos, Hlong. reflexivity.
Qed.

(** An instance: the answer is the superscript two. *)
Lemma pick_csv_value_error_witness :
  pick_csv 4300 "/data" ["/data/a.csv"] Desk.name_of
    [Typed (String "178"%char EmptyString)] =
  ([EvMenu ["a.csv"]], inl (Traceback (Raised "ValueError"))).
Proof.
  apply (pick_csv_value_error 4300 "/data" ["/data/a.csv"] Desk.name_of
           (String "178"%char EmptyString) []);
    [discriminate | reflexivity | left; reflexivity].
Defined.

(** ** The whole run *)

Lemma load_rows_exit csv_sniff csv_DictReader text msgs n :
  load_rows csv_sniff csv_DictReader text = (msgs, SysExit n) -> n = 1.
Proof.
  unfold load_rows. rewrite resolve_columns_default.
  destruct (resolve_columns_cases
              (default [] (fieldnames (csv_DictReader text
                 (sniff_csv_dialect csv_sniff text))))) as [[fm ->] | ->].
  - destruct (rows_loop _ _ _ _ _). discriminate.
  - now intros [= _ <-].
Qed.

Lemma pick_csv_endings int_max_str_digits base_dir csvs name inp out e :
  pick_csv int_max_str_digits base_dir csvs name inp = (out, inl e) ->
  e = Exit 1 \/ e = Traceback (Raised "EOFError") \/
  e = Traceback (Raised "ValueError").
Proof.
  unfold pick_csv. destruct csvs as [|c csvs].
  - intros [= _ <-]. auto.
  - apply pick_loop_endings.
Qed.

Lemma ask_endings inp out e :
  ask inp = (out, inl e) -> e = Exit 1 \/ e = Traceback (Raised "EOFError").
Proof. destruct inp as [|[line|] inp]; simpl; intros [= _ <-]; auto. Qed.



